(** * recorder.cpp: the bounded realtime sample-accumulation protocol

    A shallow embedding of [src/recorder/recorder.cpp]: the [RecordData]
    capture state, the PortAudio callback [recordCallback], the external stop
    signal raised by [main], and the exit paths of [main].

    Conventions.
    - [size_t] and [unsigned long] are 64 bits (the file is built with g++ on
      an LP64 target): values are [Z] in [0, 2^64) and every arithmetic
      operation of the source is followed by [size_t_wrap].
    - [std::vector<float>] is a record holding the elements, the capacity and
      a ghost count of the reallocations performed so far.  Memory is
      unbounded in the model: a [push_back] never fails.
    - An input buffer is the list of the samples readable through the
      pointer.  Reading past its end is undefined behaviour in C++; the model
      returns [None] there. *)

From Stdlib Require Import String.
From Stdlib Require Import ZArith List Bool Lia.
From Stdlib Require Import Floats.SpecFloat.
Import ListNotations.
Local Open Scope Z_scope.

(** ** Machine integers *)

Definition size_t_max : Z := 2 ^ 64 - 1.

(** Unsigned 64-bit wrap-around ([size_t], [unsigned long]). *)
Definition size_t_wrap (z : Z) : Z := z mod 2 ^ 64.

(** Signed 32-bit wrap-around ([int]). *)
Definition int_wrap (z : Z) : Z := (z + 2 ^ 31) mod 2 ^ 32 - 2 ^ 31.

(** Signed 64-bit wrap-around ([sf_count_t], [long long]). *)
Definition sf_count_t_wrap (z : Z) : Z := (z + 2 ^ 63) mod 2 ^ 64 - 2 ^ 63.

(** ** Samples *)

(** A [float] sample.  Samples are only stored and copied, never computed
    with, so the IEEE 754 specification type is enough. *)
Definition float : Type := spec_float.

(** The literal [0.0f]. *)
Definition zero_sample : float := S754_zero false.

(** ** Compile-time configuration (the [#define]s) *)

Definition SAMPLE_RATE : Z := 44100.
Definition FRAMES_PER_BUFFER : Z := 512.
Definition NUM_SECONDS : Z := 5.
Definition NUM_CHANNELS : Z := 1.
Definition OUTPUT_FILENAME : string := "recording.wav".

(** ** [std::vector<float>] *)

Module Vec.

Record vector : Type := mkVector {
  elems : list float;
  capacity : Z;
  reallocations : nat
}.

(** A default-constructed vector. *)
Definition empty : vector :=
  {| elems := []; capacity := 0; reallocations := 0 |}.

Definition size (v : vector) : Z := Z.of_nat (length (elems v)).

(** [v.reserve(n)]: grows the storage when [n] exceeds the capacity. *)
Definition reserve (n : Z) (v : vector) : vector :=
  if capacity v <? n
  then {| elems := elems v; capacity := n;
          reallocations := S (reallocations v) |}
  else v.

(** [v.push_back(x)]: appends in place while [size < capacity]; otherwise the
    storage is reallocated first (libstdc++ grows to [size + max size 1]). *)
Definition push_back (x : float) (v : vector) : vector :=
  if size v <? capacity v
  then {| elems := elems v ++ [x]; capacity := capacity v;
          reallocations := reallocations v |}
  else {| elems := elems v ++ [x];
          capacity := size v + Z.max (size v) 1;
          reallocations := S (reallocations v) |}.

End Vec.

(** ** The capture state *)

Record RecordData : Type := mkRecordData {
  recordedSamples : Vec.vector;
  recording : bool;
  maxSamples : Z
}.

(** [RecordData data;] with the default member initialisers. *)
Definition RecordData_default : RecordData :=
  {| recordedSamples := Vec.empty; recording := true; maxSamples := 0 |}.

Definition set_recordedSamples (v : Vec.vector) (data : RecordData) : RecordData :=
  {| recordedSamples := v; recording := recording data;
     maxSamples := maxSamples data |}.

Definition set_recording (b : bool) (data : RecordData) : RecordData :=
  {| recordedSamples := recordedSamples data; recording := b;
     maxSamples := maxSamples data |}.

Definition set_maxSamples (n : Z) (data : RecordData) : RecordData :=
  {| recordedSamples := recordedSamples data; recording := recording data;
     maxSamples := n |}.

(** Number of samples recorded so far: [data->recordedSamples.size()]. *)
Definition recorded (data : RecordData) : Z := Vec.size (recordedSamples data).

(** The samples recorded so far, oldest first. *)
Definition samples (data : RecordData) : list float :=
  Vec.elems (recordedSamples data).

(** ** The PortAudio callback *)

Inductive PaStreamCallbackResult : Type :=
| paContinue
| paComplete.

(** A small error monad for the callback: [None] is an out-of-bounds read of
    the input buffer. *)
Definition bind {A B : Type} (m : option A) (k : A -> option B) : option B :=
  match m with
  | Some a => k a
  | None => None
  end.

Notation "x <- m ;; k" := (bind m (fun x => k))
  (at level 61, m at next level, right associativity).

(** [for (i = 0; i < n; i++) push_back(0.0f);] *)
Fixpoint push_zeros (n : nat) (v : Vec.vector) : Vec.vector :=
  match n with
  | O => v
  | S n' => push_zeros n' (Vec.push_back zero_sample v)
  end.

(** [for (i = 0; i < n; i++) push_back( *rptr++ );] *)
Fixpoint push_input (n : nat) (rptr : list float) (v : Vec.vector)
  : option Vec.vector :=
  match n with
  | O => Some v
  | S n' =>
      match rptr with
      | [] => None
      | x :: rptr' => push_input n' rptr' (Vec.push_back x v)
      end
  end.

(** The guard of line 36: the delivered buffer does not fit under the limit,
    and a limit is set. *)
Definition hits_limit (framesPerBuffer : Z) (data : RecordData) : bool :=
  (size_t_wrap (recorded data + framesPerBuffer) >? maxSamples data)
  && (maxSamples data >? 0).

(** The value of the local [framesToRecord] when the append loop starts. *)
Definition frames_to_record (framesPerBuffer : Z) (data : RecordData) : Z :=
  if hits_limit framesPerBuffer data
  then size_t_wrap (maxSamples data - recorded data)
  else framesPerBuffer.

Definition recordCallback (inputBuffer : option (list float))
  (framesPerBuffer : Z) (data : RecordData)
  : option (RecordData * PaStreamCallbackResult) :=
  let framesToRecord := framesPerBuffer in
  let '(framesToRecord, data) :=
    if (size_t_wrap (recorded data + framesPerBuffer) >? maxSamples data)
       && (maxSamples data >? 0)
    then (size_t_wrap (maxSamples data - recorded data),
          set_recording false data)
    else (framesToRecord, data) in
  v <- match inputBuffer with
       | None =>
           Some (push_zeros (Z.to_nat framesToRecord) (recordedSamples data))
       | Some rptr =>
           push_input (Z.to_nat framesToRecord) rptr (recordedSamples data)
       end ;;
  let data := set_recordedSamples v data in
  Some (data, if recording data then paContinue else paComplete).

(** The read of the input buffer stays inside it. *)
Definition readable (inputBuffer : option (list float)) (framesPerBuffer : Z)
  (data : RecordData) : Prop :=
  match inputBuffer with
  | None => True
  | Some rptr =>
      (Z.to_nat (frames_to_record framesPerBuffer data) <= length rptr)%nat
  end.

(** ** Capture runs

    What happens to the capture state between [Pa_StartStream] and
    [Pa_StopStream]: the transport invokes the callback, and [main] lowers
    the flag once (line 110).  The callback reads the flag only in its
    [return], after the appends, and its appends do not depend on the flag, so
    a write that lands during an invocation acts as one landing just before
    it. *)

Inductive event : Type :=
| Invoke (inputBuffer : option (list float)) (framesPerBuffer : Z)
| StopSignal.

Definition step (e : event) (data : RecordData)
  : option (RecordData * list PaStreamCallbackResult) :=
  match e with
  | Invoke inputBuffer framesPerBuffer =>
      r <- recordCallback inputBuffer framesPerBuffer data ;;
      Some (fst r, [snd r])
  | StopSignal => Some (set_recording false data, [])
  end.

(** Runs a trace; returns the final state and what each invocation returned. *)
Fixpoint exec (tr : list event) (data : RecordData)
  : option (RecordData * list PaStreamCallbackResult) :=
  match tr with
  | [] => Some (data, [])
  | e :: tr' =>
      r <- step e data ;;
      r' <- exec tr' (fst r) ;;
      Some (fst r', snd r ++ snd r')
  end.

(** The state [main] hands to [Pa_OpenStream] (lines 74 to 77). *)
Definition main_setup : RecordData :=
  let data := RecordData_default in
  let totalFrames := int_wrap (NUM_SECONDS * SAMPLE_RATE) in
  let data := set_maxSamples (size_t_wrap (int_wrap (totalFrames * NUM_CHANNELS))) data in
  set_recordedSamples (Vec.reserve (maxSamples data) (recordedSamples data)) data.

(** An input buffer that holds at least [framesPerBuffer] samples, or is
    absent. *)
Definition full_buffer (framesPerBuffer : Z) (inputBuffer : option (list float))
  : Prop :=
  match inputBuffer with
  | None => True
  | Some rptr => framesPerBuffer <= Z.of_nat (length rptr)
  end.

(** An event that keeps the 64-bit length arithmetic unwrapped and the reads
    inside the input buffer, for a capture limited to [limit] samples. *)
Definition event_ok (limit : Z) (e : event) : Prop :=
  match e with
  | Invoke inputBuffer framesPerBuffer =>
      0 <= framesPerBuffer /\
      limit + framesPerBuffer <= size_t_max /\
      full_buffer framesPerBuffer inputBuffer
  | StopSignal => True
  end.

(** ** [main] *)

Definition PaError : Type := Z.
Definition paNoError : PaError := 0.
Definition PaDeviceIndex : Type := Z.
Definition paNoDevice : PaDeviceIndex := -1.

(** What the libraries and the device answer during one run. *)
Record World : Type := mkWorld {
  Pa_Initialize : PaError;
  Pa_GetDefaultInputDevice : PaDeviceIndex;
  Pa_OpenStream : PaError;
  Pa_StartStream : PaError;
  (** input buffers delivered before and after line 110 lowers the flag *)
  delivered_before_stop : list (option (list float));
  delivered_after_stop : list (option (list float));
  Pa_StopStream : PaError;
  Pa_CloseStream : PaError;
  (** [sf_open] returned a non-null handle *)
  sf_open : bool;
  sf_write_float : Z;
  sf_close : Z
}.


(** Lines written to [stderr]. *)
Inductive diagnostic : Type :=
| PortAudioError (stage : string) (err : PaError)
| NoDefaultInputDevice
| ErrorOpeningOutputFile (name : string)
| ErrorWritingSamples (expected wrote : Z)
| ErrorClosingOutputFile.

(** Lines written to [std::cout]. *)
Inductive message : Type :=
| RecordingFor (seconds : Z)
| RecordingFinished
| SuccessfullyWrote (n : Z)
| SavedRecordingTo (name : string).

Record Console : Type := mkConsole {
  err_log : list diagnostic;
  out_log : list message
}.

Definition console_empty : Console := {| err_log := []; out_log := [] |}.

Definition to_stderr (d : diagnostic) (c : Console) : Console :=
  {| err_log := err_log c ++ [d]; out_log := out_log c |}.

Definition to_stdout (m : message) (c : Console) : Console :=
  {| err_log := err_log c; out_log := out_log c ++ [m] |}.

Record Outcome : Type := mkOutcome {
  exit_code : Z;
  console : Console
}.

(** [handlePaError]: on an error, report it and [exit(1)]; otherwise go on
    with the rest of [main]. *)
Definition handlePaError (err : PaError) (stage : string) (c : Console)
  (rest : Console -> option Outcome) : option Outcome :=
  if negb (err =? paNoError)
  then Some {| exit_code := 1; console := to_stderr (PortAudioError stage err) c |}
  else rest c.

(** The callback invocations and the flag write of one capture: every
    invocation is handed [FRAMES_PER_BUFFER] frames, as [Pa_OpenStream] was
    asked. *)
Definition capture_trace (w : World) : list event :=
  map (fun i => Invoke i FRAMES_PER_BUFFER) (delivered_before_stop w)
  ++ StopSignal
  :: map (fun i => Invoke i FRAMES_PER_BUFFER) (delivered_after_stop w).

Definition main (w : World) : option Outcome :=
  let c := console_empty in
  let data := main_setup in
  handlePaError (Pa_Initialize w) "Initialization" c (fun c =>
  if Pa_GetDefaultInputDevice w =? paNoDevice
  then Some {| exit_code := 1; console := to_stderr NoDefaultInputDevice c |}
  else
  handlePaError (Pa_OpenStream w) "Stream Opening" c (fun c =>
  let c := to_stdout (RecordingFor NUM_SECONDS) c in
  handlePaError (Pa_StartStream w) "Stream Starting" c (fun c =>
  r <- exec (capture_trace w) data ;;
  let data := fst r in
  handlePaError (Pa_StopStream w) "Stream Stopping" c (fun c =>
  handlePaError (Pa_CloseStream w) "Stream Closing" c (fun c =>
  let c := to_stdout RecordingFinished c in
  if negb (sf_open w)
  then Some {| exit_code := 1;
               console := to_stderr (ErrorOpeningOutputFile OUTPUT_FILENAME) c |}
  else
  let frames_written := sf_write_float w in
  let c :=
    if negb (frames_written =? sf_count_t_wrap (recorded data))
    then to_stderr (ErrorWritingSamples (recorded data) frames_written) c
    else to_stdout (SuccessfullyWrote frames_written) c in
  if negb (sf_close w =? 0)
  then Some {| exit_code := 1; console := to_stderr ErrorClosingOutputFile c |}
  else
  let c := to_stdout (SavedRecordingTo OUTPUT_FILENAME) c in
  Some {| exit_code := 0; console := c |}))))).

(** Every call of the run that can fail succeeded. *)
Definition full_success (w : World) : Prop :=
  Pa_Initialize w = paNoError /\
  Pa_GetDefaultInputDevice w <> paNoDevice /\
  Pa_OpenStream w = paNoError /\
  Pa_StartStream w = paNoError /\
  Pa_StopStream w = paNoError /\
  Pa_CloseStream w = paNoError /\
  sf_open w = true /\
  sf_close w = 0.

(** Every delivered input buffer holds the frames the stream was opened
    for. *)
Definition delivered_ok (w : World) : Prop :=
  Forall (full_buffer FRAMES_PER_BUFFER)
         (delivered_before_stop w ++ delivered_after_stop w).

(** ** Derived notions used in the statements *)

(** Pushing a list of samples, one [push_back] each, oldest first. *)
Definition push_all (xs : list float) (v : Vec.vector) : Vec.vector :=
  fold_left (fun v x => Vec.push_back x v) xs v.

(** The samples one invocation appends when it runs [n] loop iterations. *)
Definition appended (inputBuffer : option (list float)) (n : nat) : list float :=
  match inputBuffer with
  | None => repeat zero_sample n
  | Some rptr => firstn n rptr
  end.

(** The state the callback leaves behind when its reads stay in bounds. *)
Definition after_callback (inputBuffer : option (list float))
  (framesPerBuffer : Z) (data : RecordData) : RecordData :=
  {| recordedSamples :=
       push_all (appended inputBuffer
                   (Z.to_nat (frames_to_record framesPerBuffer data)))
                (recordedSamples data);
     recording := recording data && negb (hits_limit framesPerBuffer data);
     maxSamples := maxSamples data |}.

Definition result_of_flag (b : bool) : PaStreamCallbackResult :=
  if b then paContinue else paComplete.

(** The capture invariant: a limit is set and the buffer is within it. *)
Definition within_limit (data : RecordData) : Prop :=
  0 < maxSamples data /\ recorded data <= maxSamples data.

(** The storage reserved for the buffer covers the limit. *)
Definition reserved (data : RecordData) : Prop :=
  maxSamples data <= Vec.capacity (recordedSamples data).

(** The set-up of [main] for another limit: a default [RecordData] whose
    [maxSamples] is [limit] and whose buffer has [limit] slots reserved. *)
Definition setup_with_limit (limit : Z) : RecordData :=
  let data := set_maxSamples limit RecordData_default in
  set_recordedSamples (Vec.reserve (maxSamples data) (recordedSamples data)) data.

(** Some call that [main] checks failed: a PortAudio call, the device
    lookup, [sf_open] or [sf_close].  The count [sf_write_float] returns is
    not among them. *)
Definition some_stage_failed (w : World) : bool :=
  negb (Pa_Initialize w =? paNoError)
  || (Pa_GetDefaultInputDevice w =? paNoDevice)
  || negb (Pa_OpenStream w =? paNoError)
  || negb (Pa_StartStream w =? paNoError)
  || negb (Pa_StopStream w =? paNoError)
  || negb (Pa_CloseStream w =? paNoError)
  || negb (sf_open w)
  || negb (sf_close w =? 0).

(** A run used to exercise the exit paths: one null buffer before the stop
    signal, every stage succeeding, and [sf_write_float] reporting that it
    wrote nothing. *)
Definition short_write_world : World :=
  {| Pa_Initialize := paNoError;
     Pa_GetDefaultInputDevice := 0;
     Pa_OpenStream := paNoError;
     Pa_StartStream := paNoError;
     delivered_before_stop := [None];
     delivered_after_stop := [];
     Pa_StopStream := paNoError;
     Pa_CloseStream := paNoError;
     sf_open := true;
     sf_write_float := 0;
     sf_close := 0 |}.

(** What an event hands to the buffer when nothing is clamped: the first
    [framesPerBuffer] samples of the input, zeros for an absent input, nothing
    for the stop signal. *)
Definition delivered (e : event) : list float :=
  match e with
  | Invoke inputBuffer framesPerBuffer =>
      appended inputBuffer (Z.to_nat framesPerBuffer)
  | StopSignal => []
  end.

(** The stream of samples a run delivers, oldest first. *)
Definition delivered_stream (tr : list event) : list float :=
  flat_map delivered tr.

(** The input buffer of an invocation holds the frames it announces. *)
Definition holds_frames (e : event) : Prop :=
  match e with
  | Invoke inputBuffer framesPerBuffer => full_buffer framesPerBuffer inputBuffer
  | StopSignal => True
  end.

(** The PortAudio calls [main] passes to [handlePaError], with the stage
    name it gives each. *)
Definition checked_calls (w : World) : list (string * PaError) :=
  [("Initialization"%string, Pa_Initialize w);
   ("Stream Opening"%string, Pa_OpenStream w);
   ("Stream Starting"%string, Pa_StartStream w);
   ("Stream Stopping"%string, Pa_StopStream w);
   ("Stream Closing"%string, Pa_CloseStream w)].

(** A diagnostic that ends the run. *)
Definition fatal (d : diagnostic) : Prop :=
  match d with
  | ErrorWritingSamples _ _ => False
  | _ => True
  end.

(** Case analysis along the checks of [main], in the order it makes them:
    one case per early exit, and four for the runs that reach [sf_close]. *)
Ltac main_cases w :=
  destruct (Pa_Initialize w =? paNoError) eqn:Einit;
  [ destruct (Pa_GetDefaultInputDevice w =? paNoDevice) eqn:Edevice;
    [ | destruct (Pa_OpenStream w =? paNoError) eqn:Eopen;
        [ destruct (Pa_StartStream w =? paNoError) eqn:Estart;
          [ destruct (Pa_StopStream w =? paNoError) eqn:Estop;
            [ destruct (Pa_CloseStream w =? paNoError) eqn:Eclose;
              [ destruct (sf_open w) eqn:Efile;
                [ match goal with
                  | |- context [sf_write_float w =? ?n] =>
                      destruct (sf_write_float w =? n) eqn:Ewrite
                  end;
                  destruct (sf_close w =? 0) eqn:Eclosefile
                | ]
              | ]
            | ]
          | ]
        | ]
    ]
  | ].

(** The checks of [main] in the order it makes them, each with the line it
    writes to [stderr] when the check fails: the five calls handed to
    [handlePaError] (lines 80, 102, 106, 117, 120), the device lookup
    (line 83), [sf_open] (line 134) and [sf_close] (line 151). *)
Definition checks_in_order (w : World) : list (bool * diagnostic) :=
  [(negb (Pa_Initialize w =? paNoError),
    PortAudioError "Initialization" (Pa_Initialize w));
   (Pa_GetDefaultInputDevice w =? paNoDevice,
    NoDefaultInputDevice);
   (negb (Pa_OpenStream w =? paNoError),
    PortAudioError "Stream Opening" (Pa_OpenStream w));
   (negb (Pa_StartStream w =? paNoError),
    PortAudioError "Stream Starting" (Pa_StartStream w));
   (negb (Pa_StopStream w =? paNoError),
    PortAudioError "Stream Stopping" (Pa_StopStream w));
   (negb (Pa_CloseStream w =? paNoError),
    PortAudioError "Stream Closing" (Pa_CloseStream w));
   (negb (sf_open w),
    ErrorOpeningOutputFile OUTPUT_FILENAME);
   (negb (sf_close w =? 0),
    ErrorClosingOutputFile)].

(** The diagnostic of the first check that fails, if one does. *)
Definition ending_diagnostic (w : World) : option diagnostic :=
  option_map snd (find fst (checks_in_order w)).

(** * Proofs *)

(** ** Vectors *)

Lemma push_all_elems (xs : list float) (v : Vec.vector) :
  Vec.elems (push_all xs v) = Vec.elems v ++ xs.
Proof.
  revert v. induction xs as [|x xs IH]; intros v; simpl.
  - now rewrite app_nil_r.
  - unfold push_all in IH. rewrite IH. unfold Vec.push_back.
    destruct (Vec.size v <? Vec.capacity v); simpl; now rewrite <- app_assoc.
Qed.

Lemma push_all_size (xs : list float) (v : Vec.vector) :
  Vec.size (push_all xs v) = Vec.size v + Z.of_nat (length xs).
Proof.
  unfold Vec.size. rewrite push_all_elems, length_app. lia.
Qed.

(** Appends that fit in the capacity leave the storage where it is. *)
Lemma push_all_in_place (xs : list float) (v : Vec.vector) :
  Vec.size v + Z.of_nat (length xs) <= Vec.capacity v ->
  Vec.capacity (push_all xs v) = Vec.capacity v /\
  Vec.reallocations (push_all xs v) = Vec.reallocations v.
Proof.
  revert v. induction xs as [|x xs IH]; intros v Hfit; simpl in *.
  - auto.
  - assert (Hlt : (Vec.size v <? Vec.capacity v) = true) by (apply Z.ltb_lt; lia).
    assert (Hstep : Vec.push_back x v =
              {| Vec.elems := Vec.elems v ++ [x];
                 Vec.capacity := Vec.capacity v;
                 Vec.reallocations := Vec.reallocations v |})
      by (unfold Vec.push_back; now rewrite Hlt).
    unfold push_all in IH. rewrite Hstep.
    destruct (IH {| Vec.elems := Vec.elems v ++ [x];
                    Vec.capacity := Vec.capacity v;
                    Vec.reallocations := Vec.reallocations v |}) as [Hc Hr].
    + unfold Vec.size in *. simpl. rewrite length_app. simpl. lia.
    + simpl in Hc, Hr. auto.
Qed.

Lemma push_zeros_push_all (n : nat) (v : Vec.vector) :
  push_zeros n v = push_all (repeat zero_sample n) v.
Proof.
  revert v. induction n as [|n IH]; intros v; simpl; auto.
Qed.

Lemma push_input_in_bounds (n : nat) (rptr : list float) (v : Vec.vector) :
  (n <= length rptr)%nat ->
  push_input n rptr v = Some (push_all (firstn n rptr) v).
Proof.
  revert rptr v. induction n as [|n IH]; intros rptr v Hn; simpl; auto.
  destruct rptr as [|x rptr]; simpl in *; [lia|].
  apply IH. lia.
Qed.

Lemma push_input_out_of_bounds (n : nat) (rptr : list float) (v : Vec.vector) :
  (length rptr < n)%nat -> push_input n rptr v = None.
Proof.
  revert rptr v. induction n as [|n IH]; intros rptr v Hn; simpl; [lia|].
  destruct rptr as [|x rptr]; simpl in *; auto.
  apply IH. lia.
Qed.

Lemma appended_length (inputBuffer : option (list float)) (n : nat) :
  match inputBuffer with
  | None => True
  | Some rptr => (n <= length rptr)%nat
  end ->
  length (appended inputBuffer n) = n.
Proof.
  destruct inputBuffer as [rptr|]; simpl; intros H.
  - apply firstn_length_le; assumption.
  - apply repeat_length.
Qed.

(** ** The callback, in closed form *)

Lemma recordCallback_readable (inputBuffer : option (list float))
  (framesPerBuffer : Z) (data : RecordData) :
  readable inputBuffer framesPerBuffer data ->
  recordCallback inputBuffer framesPerBuffer data =
  Some (after_callback inputBuffer framesPerBuffer data,
        result_of_flag (recording data && negb (hits_limit framesPerBuffer data))).
Proof.
  unfold readable, recordCallback, after_callback, frames_to_record, hits_limit.
  intros Hread.
  destruct ((size_t_wrap (recorded data + framesPerBuffer) >? maxSamples data)
            && (maxSamples data >? 0)) eqn:Hhit;
    destruct inputBuffer as [rptr|]; simpl.
  - rewrite (push_input_in_bounds _ _ _ Hread). simpl.
    now rewrite andb_false_r.
  - rewrite push_zeros_push_all. now rewrite andb_false_r.
  - rewrite (push_input_in_bounds _ _ _ Hread). simpl.
    rewrite andb_true_r. unfold set_recordedSamples. reflexivity.
  - rewrite push_zeros_push_all. rewrite andb_true_r. reflexivity.
Qed.

Lemma recordCallback_returns (inputBuffer : option (list float))
  (framesPerBuffer : Z) (data : RecordData) (r : RecordData * PaStreamCallbackResult) :
  recordCallback inputBuffer framesPerBuffer data = Some r ->
  readable inputBuffer framesPerBuffer data.
Proof.
  unfold readable. destruct inputBuffer as [rptr|]; [|trivial].
  intros Hret.
  destruct (Nat.le_gt_cases
              (Z.to_nat (frames_to_record framesPerBuffer data)) (length rptr))
    as [Hle|Hgt]; [assumption|exfalso].
  revert Hret. unfold recordCallback, frames_to_record, hits_limit in *.
  destruct ((size_t_wrap (recorded data + framesPerBuffer) >? maxSamples data)
            && (maxSamples data >? 0)); simpl;
    rewrite (push_input_out_of_bounds _ _ _ Hgt); discriminate.
Qed.

(** ** Length arithmetic without wrap-around *)

Lemma size_t_wrap_small (z : Z) :
  0 <= z <= size_t_max -> size_t_wrap z = z.
Proof.
  unfold size_t_wrap, size_t_max. intros H. apply Z.mod_small. lia.
Qed.

Lemma recorded_nonneg (data : RecordData) : 0 <= recorded data.
Proof. unfold recorded, Vec.size. lia. Qed.

Lemma hits_limit_true (framesPerBuffer : Z) (data : RecordData) :
  hits_limit framesPerBuffer data = true <->
  size_t_wrap (recorded data + framesPerBuffer) > maxSamples data /\
  maxSamples data > 0.
Proof.
  unfold hits_limit. rewrite andb_true_iff, !Z.gtb_gt. lia.
Qed.

Lemma hits_limit_no_wrap (framesPerBuffer : Z) (data : RecordData) :
  0 <= framesPerBuffer ->
  recorded data + framesPerBuffer <= size_t_max ->
  hits_limit framesPerBuffer data =
  (recorded data + framesPerBuffer >? maxSamples data) && (maxSamples data >? 0).
Proof.
  intros H0 Hmax. unfold hits_limit.
  rewrite size_t_wrap_small; [reflexivity|].
  pose proof (recorded_nonneg data). lia.
Qed.

(** Step 1 of the callback's contract: under the capture invariant, and as
    long as the length arithmetic does not wrap, the loop bound is the
    delivered frame count clamped to the headroom. *)
Lemma frames_to_record_clamped (framesPerBuffer : Z) (data : RecordData) :
  within_limit data ->
  0 <= framesPerBuffer ->
  maxSamples data + framesPerBuffer <= size_t_max ->
  frames_to_record framesPerBuffer data =
  Z.min framesPerBuffer (maxSamples data - recorded data).
Proof.
  intros [Hpos Hle] H0 Hmax. unfold frames_to_record.
  pose proof (recorded_nonneg data) as Hr.
  rewrite hits_limit_no_wrap by lia.
  destruct (recorded data + framesPerBuffer >? maxSamples data) eqn:Hgt;
    destruct (maxSamples data >? 0) eqn:Hp; simpl;
    rewrite ?Z.gtb_gt, ?Z.gtb_ltb, ?Z.ltb_ge in *; try lia.
  rewrite size_t_wrap_small; lia.
Qed.

Lemma event_ok_readable (inputBuffer : option (list float))
  (framesPerBuffer : Z) (data : RecordData) :
  within_limit data ->
  event_ok (maxSamples data) (Invoke inputBuffer framesPerBuffer) ->
  readable inputBuffer framesPerBuffer data.
Proof.
  intros Hin (H0 & Hmax & Hbuf). unfold readable.
  destruct inputBuffer as [rptr|]; [|trivial].
  unfold full_buffer in Hbuf.
  rewrite frames_to_record_clamped by assumption. lia.
Qed.

(** One in-range invocation keeps the invariant, and appends in place. *)
Lemma after_callback_within_limit (inputBuffer : option (list float))
  (framesPerBuffer : Z) (data : RecordData) :
  within_limit data ->
  reserved data ->
  event_ok (maxSamples data) (Invoke inputBuffer framesPerBuffer) ->
  let data' := after_callback inputBuffer framesPerBuffer data in
  within_limit data' /\
  reserved data' /\
  recorded data' =
    recorded data + Z.min framesPerBuffer (maxSamples data - recorded data) /\
  Vec.capacity (recordedSamples data') = Vec.capacity (recordedSamples data) /\
  Vec.reallocations (recordedSamples data') =
    Vec.reallocations (recordedSamples data).
Proof.
  intros Hin Hres Hok.
  pose proof (event_ok_readable _ _ _ Hin Hok) as Hread.
  destruct Hok as (H0 & Hmax & Hbuf).
  pose proof (frames_to_record_clamped _ _ Hin H0 Hmax) as Hn.
  pose proof (recorded_nonneg data) as Hr.
  destruct Hin as [Hpos Hle]. unfold reserved in Hres.
  assert (Hlen : Z.of_nat (length (appended inputBuffer
                   (Z.to_nat (frames_to_record framesPerBuffer data)))) =
                 Z.min framesPerBuffer (maxSamples data - recorded data)).
  { rewrite appended_length by exact Hread. rewrite Hn. lia. }
  destruct (push_all_in_place
              (appended inputBuffer
                 (Z.to_nat (frames_to_record framesPerBuffer data)))
              (recordedSamples data)) as [Hc Hrl].
  { rewrite Hlen. unfold recorded in *. lia. }
  unfold within_limit, reserved, recorded, after_callback in *; simpl.
  rewrite push_all_size, Hlen, Hc, Hrl.
  repeat split; lia.
Qed.

Lemma recorded_after_callback (inputBuffer : option (list float))
  (framesPerBuffer : Z) (data : RecordData) :
  readable inputBuffer framesPerBuffer data ->
  recorded (after_callback inputBuffer framesPerBuffer data) =
  recorded data + Z.of_nat (Z.to_nat (frames_to_record framesPerBuffer data)).
Proof.
  intros Hread. unfold recorded, after_callback; simpl.
  rewrite push_all_size, appended_length by exact Hread. reflexivity.
Qed.

(** ** Capture runs *)

Lemma exec_cons (e : event) (tr : list event) (data data1 data2 : RecordData)
  (rs1 rs2 : list PaStreamCallbackResult) :
  step e data = Some (data1, rs1) ->
  exec tr data1 = Some (data2, rs2) ->
  exec (e :: tr) data = Some (data2, rs1 ++ rs2).
Proof.
  intros H1 H2. simpl. rewrite H1. simpl. rewrite H2. reflexivity.
Qed.

Lemma exec_app (tr1 tr2 : list event) (data data1 data2 : RecordData)
  (rs1 rs2 : list PaStreamCallbackResult) :
  exec tr1 data = Some (data1, rs1) ->
  exec tr2 data1 = Some (data2, rs2) ->
  exec (tr1 ++ tr2) data = Some (data2, rs1 ++ rs2).
Proof.
  revert data rs1. induction tr1 as [|e tr1 IH]; intros data rs1 H1 H2; simpl in *.
  - injection H1 as <- <-. rewrite H2. reflexivity.
  - destruct (step e data) as [[d0 r0]|]; simpl in *; [|discriminate].
    destruct (exec tr1 d0) as [[d1' r1']|] eqn:He; simpl in *; [|discriminate].
    injection H1 as <- <-.
    rewrite (IH d0 r1' He H2). simpl. now rewrite app_assoc.
Qed.

Lemma step_invoke (inputBuffer : option (list float)) (framesPerBuffer : Z)
  (data : RecordData) :
  readable inputBuffer framesPerBuffer data ->
  step (Invoke inputBuffer framesPerBuffer) data =
  Some (after_callback inputBuffer framesPerBuffer data,
        [result_of_flag
           (recording data && negb (hits_limit framesPerBuffer data))]).
Proof.
  intros Hread. unfold step.
  rewrite (recordCallback_readable _ _ _ Hread). reflexivity.
Qed.

(** Any run of in-range events is defined, keeps the buffer within the limit
    and never moves its storage. *)
Lemma exec_within_limit (tr : list event) :
  forall data : RecordData,
  within_limit data ->
  reserved data ->
  Forall (event_ok (maxSamples data)) tr ->
  exists data' rs,
    exec tr data = Some (data', rs) /\
    within_limit data' /\
    reserved data' /\
    maxSamples data' = maxSamples data /\
    Vec.capacity (recordedSamples data') = Vec.capacity (recordedSamples data) /\
    Vec.reallocations (recordedSamples data') =
      Vec.reallocations (recordedSamples data).
Proof.
  induction tr as [|e tr IH]; intros data Hin Hres Hall.
  - exists data, []. simpl. split; [reflexivity|]. auto.
  - inversion Hall as [|e' tr' He Htr]; subst.
    destruct e as [inputBuffer framesPerBuffer|].
    + destruct (after_callback_within_limit _ _ _ Hin Hres He)
        as (Hin' & Hres' & _ & Hc & Hr).
      destruct (IH (after_callback inputBuffer framesPerBuffer data) Hin' Hres' Htr)
        as (data' & rs & Hex & Hin2 & Hres2 & Hmax & Hc2 & Hr2).
      exists data', (result_of_flag
                 (recording data && negb (hits_limit framesPerBuffer data)) :: rs).
      split.
      * apply (exec_cons _ _ _ _ _ [_] rs
                 (step_invoke _ _ _ (event_ok_readable _ _ _ Hin He)) Hex).
      * simpl in Hmax. split; [exact Hin2|]. split; [exact Hres2|].
        split; [exact Hmax|]. split; congruence.
    + destruct (IH (set_recording false data) Hin Hres Htr)
        as (data' & rs & Hex & Hin2 & Hres2 & Hmax & Hc2 & Hr2).
      exists data', rs. split.
      * apply (exec_cons StopSignal tr data _ _ [] rs eq_refl Hex).
      * split; [exact Hin2|]. split; [exact Hres2|]. auto.
Qed.

Lemma main_setup_within_limit : within_limit main_setup /\ reserved main_setup.
Proof. unfold within_limit, reserved. vm_compute. intuition discriminate. Qed.

Lemma main_setup_maxSamples : maxSamples main_setup = 220500.
Proof. reflexivity. Qed.

(** * The claims *)

(** ** C1: the buffer bound over whole capture runs *)

Lemma Forall_firstn_of (P : event -> Prop) (n : nat) (tr : list event) :
  Forall P tr -> Forall P (firstn n tr).
Proof.
  intros Hall. rewrite <- (firstn_skipn n tr) in Hall.
  apply Forall_app in Hall. tauto.
Qed.

(** C1: for every sequence of callback invocations that starts from the
    empty buffer [main] sets up ([maxSamples] = 5 * 44100 * 1 = 220500), for
    any frame counts a transport can hand over (from 0 up to
    [2^64 - 1 - maxSamples], so that [size() + framesPerBuffer] on line 36 is
    the true sum) and any input buffers (present with at least
    [framesPerBuffer] samples, or absent), with the flag lowered at any
    point, the run is defined and the recorded length is at most [maxSamples]
    after every invocation: this holds of every prefix [firstn n tr] of the
    run. *)
Theorem capture_never_exceeds_limit (tr : list event) (n : nat) :
  Forall (event_ok 220500) tr ->
  exists data rs,
    exec (firstn n tr) main_setup = Some (data, rs) /\
    samples main_setup = [] /\
    maxSamples data = NUM_SECONDS * SAMPLE_RATE * NUM_CHANNELS /\
    maxSamples data = 220500 /\
    recorded data <= maxSamples data.
Proof.
  intros Hall.
  destruct main_setup_within_limit as [Hin Hres].
  destruct (exec_within_limit (firstn n tr) main_setup Hin Hres)
    as (data & rs & Hex & [_ Hle] & _ & Hmax & _).
  { rewrite main_setup_maxSamples. apply Forall_firstn_of. exact Hall. }
  rewrite main_setup_maxSamples in Hmax.
  exists data, rs. split; [exact Hex|]. split; [reflexivity|].
  split; [rewrite Hmax; reflexivity|]. split; [exact Hmax|exact Hle].
Qed.

Lemma capture_never_exceeds_limit_witness :
  exists data rs,
    exec [Invoke None 512; StopSignal;
          Invoke (Some [zero_sample; zero_sample; zero_sample]) 3;
          Invoke None 1000000] main_setup = Some (data, rs) /\
    recorded data <= 220500.
Proof.
  destruct (capture_never_exceeds_limit
              [Invoke None 512; StopSignal;
               Invoke (Some [zero_sample; zero_sample; zero_sample]) 3;
               Invoke None 1000000] 4)
    as (data & rs & Hex & _ & _ & Hmax & Hle).
  - repeat constructor; vm_compute; discriminate.
  - exists data, rs. split; [exact Hex|]. rewrite Hmax in Hle. exact Hle.
Defined.

(** ** C2: what the callback returns *)

Lemma size_t_wrap_cases (z : Z) :
  0 <= z < 2 * 2 ^ 64 ->
  size_t_wrap z = z \/ (2 ^ 64 <= z /\ size_t_wrap z = z - 2 ^ 64).
Proof.
  intros Hz. unfold size_t_wrap.
  destruct (Z.lt_ge_cases z (2 ^ 64)) as [Hlt|Hge].
  - left. apply Z.mod_small. lia.
  - right. split; [exact Hge|].
    replace z with ((z - 2 ^ 64) + 1 * 2 ^ 64) at 1 by lia.
    rewrite Z.mod_add by discriminate. apply Z.mod_small. lia.
Qed.

(** Below the limit the loop bound never exceeds the delivered count,
    whatever the count. *)
Lemma frames_to_record_le (framesPerBuffer : Z) (data : RecordData) :
  recorded data < maxSamples data ->
  maxSamples data <= size_t_max ->
  0 <= framesPerBuffer <= size_t_max ->
  0 <= frames_to_record framesPerBuffer data <= framesPerBuffer.
Proof.
  intros Hlt Hmax Hf. pose proof (recorded_nonneg data) as Hr.
  unfold frames_to_record, size_t_max in *.
  destruct (hits_limit framesPerBuffer data) eqn:Hhit; [|lia].
  apply hits_limit_true in Hhit. destruct Hhit as [Hsum Hpos].
  rewrite size_t_wrap_small by (unfold size_t_max; lia).
  destruct (size_t_wrap_cases (recorded data + framesPerBuffer)) as [He|[Hge He]];
    [lia| |]; rewrite He in Hsum; lia.
Qed.

(** C2 as stated fails: an invocation that fills the buffer exactly, here
    220500 frames into the empty buffer of [main], leaves the flag up and
    returns [paContinue] although the buffer has reached [maxSamples]; and an
    invocation that finds the buffer already full and is handed no frames
    returns [paContinue] as well. *)
Lemma continue_returned_at_the_limit :
  exists data1 data2,
    recordCallback None 220500 main_setup = Some (data1, paContinue) /\
    recording data1 = true /\
    recorded data1 = maxSamples data1 /\
    recordCallback None 0 data1 = Some (data2, paContinue) /\
    recording data2 = true /\
    recorded data2 = maxSamples data2.
Proof.
  set (data1 := after_callback None 220500 main_setup).
  assert (Hrec1 : recorded data1 = 220500).
  { unfold data1. rewrite recorded_after_callback by exact I. reflexivity. }
  assert (Hhit : hits_limit 0 data1 = false).
  { unfold hits_limit. rewrite Z.add_0_r, Hrec1. reflexivity. }
  assert (Hn : frames_to_record 0 data1 = 0).
  { unfold frames_to_record. rewrite Hhit. reflexivity. }
  exists data1, (after_callback None 0 data1).
  split; [rewrite recordCallback_readable by exact I; reflexivity|].
  split; [reflexivity|].
  split; [rewrite Hrec1; reflexivity|].
  split.
  { rewrite recordCallback_readable by exact I. rewrite Hhit. reflexivity. }
  split.
  { change (recording data1 && negb (hits_limit 0 data1) = true).
    rewrite Hhit. reflexivity. }
  rewrite recorded_after_callback by exact I. rewrite Hn, Hrec1. reflexivity.
Qed.

(** C2 (amended): for every invocation whose reads stay inside the input
    buffer, the callback returns "continue" exactly when the flag is up at
    the end of the invocation, and the flag is up at the end exactly when it
    was up on entry and the guard of line 36 did not fire on this invocation
    (it fires when a limit is set and the 64-bit sum of the length and the
    frame count exceeds it); otherwise the callback returns "complete".  In
    particular an invocation entered with the flag down returns "complete",
    and one entered below the limit appends at most [framesPerBuffer]
    samples. *)
Theorem callback_returns_the_flag (inputBuffer : option (list float))
  (framesPerBuffer : Z) (data : RecordData) :
  readable inputBuffer framesPerBuffer data ->
  exists data' r,
    recordCallback inputBuffer framesPerBuffer data = Some (data', r) /\
    (r = paContinue <-> recording data' = true) /\
    (r = paComplete <-> recording data' = false) /\
    (recording data' = true <->
       recording data = true /\
       ~ (size_t_wrap (recorded data + framesPerBuffer) > maxSamples data /\
          maxSamples data > 0)) /\
    (recording data = false -> r = paComplete) /\
    (recorded data < maxSamples data ->
     maxSamples data <= size_t_max ->
     0 <= framesPerBuffer <= size_t_max ->
     recorded data <= recorded data' <= recorded data + framesPerBuffer).
Proof.
  intros Hread.
  exists (after_callback inputBuffer framesPerBuffer data),
    (result_of_flag (recording data && negb (hits_limit framesPerBuffer data))).
  split; [apply recordCallback_readable; exact Hread|].
  pose proof (hits_limit_true framesPerBuffer data) as Hhit.
  unfold after_callback; simpl recording.
  destruct (recording data); destruct (hits_limit framesPerBuffer data); simpl;
    (split; [intuition congruence|]);
    (split; [intuition congruence|]);
    (split; [intuition congruence|]);
    (split; [intuition congruence|]);
    intros Hlt Hmax Hf;
    pose proof (frames_to_record_le _ _ Hlt Hmax Hf) as Hn;
    pose proof (recorded_after_callback _ _ _ Hread) as Hrec;
    unfold after_callback in Hrec; unfold recorded in *; simpl in *;
    rewrite Hrec; lia.
Qed.

Lemma callback_returns_the_flag_witness :
  exists data' r,
    recordCallback (Some [zero_sample; zero_sample]) 2
      (set_recording false (setup_with_limit 5)) = Some (data', r) /\
    r = paComplete /\
    recorded data' <= 2.
Proof.
  destruct (callback_returns_the_flag (Some [zero_sample; zero_sample]) 2
              (set_recording false (setup_with_limit 5)))
    as (data' & r & Hcall & _ & _ & _ & Hdown & Hle).
  - vm_compute. lia.
  - exists data', r. split; [exact Hcall|]. split; [apply Hdown; reflexivity|].
    apply Hle; vm_compute; intuition discriminate.
Defined.

(** ** C3: invoking the callback on a full buffer *)

Lemma hits_limit_at_limit (framesPerBuffer : Z) (data : RecordData) :
  0 < maxSamples data ->
  recorded data <= maxSamples data ->
  recorded data + framesPerBuffer > maxSamples data ->
  recorded data + framesPerBuffer <= size_t_max ->
  hits_limit framesPerBuffer data = true.
Proof.
  intros Hpos Hle Hgt Hmax. pose proof (recorded_nonneg data) as Hr.
  apply hits_limit_true. rewrite size_t_wrap_small by lia. lia.
Qed.

(** C3 as stated fails in two ways the code chooses.  A default
    [RecordData] has [maxSamples = 0] and an empty buffer, so its length
    equals [maxSamples]; the guard asks for [maxSamples > 0], and a frame
    delivered there is appended and answered with [paContinue].  And with a
    limit set (here 2 samples), a buffer filled exactly keeps the flag up, so
    an invocation that is handed no frames returns [paContinue]. *)
Lemma full_buffer_may_continue :
  (exists data',
     recorded RecordData_default = maxSamples RecordData_default /\
     recordCallback None 1 RecordData_default = Some (data', paContinue) /\
     samples data' = [zero_sample]) /\
  (exists full,
     recordCallback None 2 (setup_with_limit 2) = Some (full, paContinue) /\
     recorded full = maxSamples full /\
     maxSamples full = 2 /\
     recordCallback None 0 full = Some (full, paContinue)).
Proof.
  split.
  - eexists. split; [reflexivity|]. split; reflexivity.
  - eexists. split; [reflexivity|]. split; [reflexivity|].
    split; reflexivity.
Qed.

(** C3 (amended): for every state with a limit set ([maxSamples > 0]) whose
    buffer length equals [maxSamples], for any input buffer and any
    [framesPerBuffer >= 1] that leaves the 64-bit sum unwrapped
    ([maxSamples + framesPerBuffer <= 2^64 - 1]), the callback appends no
    sample (the vector is left as it was), lowers the flag and returns
    "complete". *)
Theorem full_buffer_completes (inputBuffer : option (list float))
  (framesPerBuffer : Z) (data : RecordData) :
  0 < maxSamples data ->
  recorded data = maxSamples data ->
  0 < framesPerBuffer ->
  maxSamples data + framesPerBuffer <= size_t_max ->
  recordCallback inputBuffer framesPerBuffer data =
  Some (set_recording false data, paComplete).
Proof.
  intros Hpos Hfull Hf Hmax.
  assert (Hhit : hits_limit framesPerBuffer data = true)
    by (apply hits_limit_at_limit; lia).
  assert (Hn : frames_to_record framesPerBuffer data = 0).
  { unfold frames_to_record. rewrite Hhit, Hfull, Z.sub_diag. reflexivity. }
  assert (Hread : readable inputBuffer framesPerBuffer data).
  { unfold readable. destruct inputBuffer; [|trivial]. rewrite Hn. simpl. lia. }
  rewrite (recordCallback_readable _ _ _ Hread).
  unfold after_callback, set_recording. rewrite Hn, Hhit, andb_false_r.
  destruct inputBuffer; reflexivity.
Qed.

Lemma full_buffer_completes_witness :
  recordCallback (Some [zero_sample; zero_sample; zero_sample]) 3
    (after_callback None 2 (setup_with_limit 2)) =
  Some (set_recording false (after_callback None 2 (setup_with_limit 2)),
        paComplete).
Proof.
  apply (full_buffer_completes (Some [zero_sample; zero_sample; zero_sample]) 3
           (after_callback None 2 (setup_with_limit 2)));
    vm_compute; congruence.
Defined.

(** ** C4: the limit reached inside a delivered buffer *)

(** C4 as stated fails where the code switches the limit off.  On a default
    [RecordData] ([maxSamples = 0], empty buffer) a delivery of 512 frames
    has [0 + 512 > maxSamples], yet the guard asks for [maxSamples > 0]: all
    512 samples are appended, not the headroom of 0, the flag stays up and
    the buffer ends above [maxSamples]. *)
Lemma no_clamp_without_limit :
  exists data',
    recorded RecordData_default + 512 > maxSamples RecordData_default /\
    recordCallback None 512 RecordData_default = Some (data', paContinue) /\
    recorded data' = 512 /\
    maxSamples data' - recorded RecordData_default = 0 /\
    recording data' = true /\
    recorded data' > maxSamples data'.
Proof.
  exists (after_callback None 512 RecordData_default).
  split; [reflexivity|].
  split; [rewrite recordCallback_readable by exact I; reflexivity|].
  split; [rewrite recorded_after_callback by exact I; reflexivity|].
  split; [reflexivity|]. split; [reflexivity|].
  rewrite recorded_after_callback by exact I. reflexivity.
Qed.

(** C4 (amended): for every invocation on a state with a limit set
    ([maxSamples > 0]) and a buffer within it, in which the length plus
    [framesPerBuffer] exceeds [maxSamples] without wrapping around 2^64, and
    whose reads stay inside the input buffer, the callback appends exactly
    the headroom [maxSamples - length] (the first samples of the input, or
    zeros), lowers the flag, returns "complete", and leaves the buffer with
    exactly [maxSamples] samples. *)
Theorem partial_buffer_at_limit (inputBuffer : option (list float))
  (framesPerBuffer : Z) (data : RecordData) :
  0 < maxSamples data ->
  recorded data <= maxSamples data ->
  recorded data + framesPerBuffer > maxSamples data ->
  recorded data + framesPerBuffer <= size_t_max ->
  readable inputBuffer framesPerBuffer data ->
  exists data' new,
    recordCallback inputBuffer framesPerBuffer data = Some (data', paComplete) /\
    samples data' = samples data ++ new /\
    new = appended inputBuffer (Z.to_nat (maxSamples data - recorded data)) /\
    Z.of_nat (length new) = maxSamples data - recorded data /\
    recording data' = false /\
    maxSamples data' = maxSamples data /\
    recorded data' = maxSamples data.
Proof.
  intros Hpos Hle Hgt Hmax Hread.
  pose proof (recorded_nonneg data) as Hr.
  assert (Hhit : hits_limit framesPerBuffer data = true)
    by (apply hits_limit_at_limit; assumption).
  assert (Hn : frames_to_record framesPerBuffer data =
               maxSamples data - recorded data).
  { unfold frames_to_record. rewrite Hhit. apply size_t_wrap_small. lia. }
  assert (Hlen : length (appended inputBuffer
                           (Z.to_nat (maxSamples data - recorded data))) =
                 Z.to_nat (maxSamples data - recorded data)).
  { apply appended_length. unfold readable in Hread. now rewrite Hn in Hread. }
  exists (after_callback inputBuffer framesPerBuffer data),
    (appended inputBuffer (Z.to_nat (maxSamples data - recorded data))).
  split.
  { rewrite (recordCallback_readable _ _ _ Hread).
    now rewrite Hhit, andb_false_r. }
  split.
  { unfold samples, after_callback; simpl. now rewrite push_all_elems, Hn. }
  split; [reflexivity|].
  split; [rewrite Hlen; lia|].
  split; [unfold after_callback; simpl; now rewrite Hhit, andb_false_r|].
  split; [reflexivity|].
  rewrite (recorded_after_callback _ _ _ Hread), Hn. lia.
Qed.

Lemma partial_buffer_at_limit_witness :
  exists data' new,
    recordCallback (Some [zero_sample; zero_sample; zero_sample]) 3
      (after_callback None 1 (setup_with_limit 2)) = Some (data', paComplete) /\
    samples data' = samples (after_callback None 1 (setup_with_limit 2)) ++ new /\
    new = [zero_sample] /\
    Z.of_nat (length new) = 1 /\
    recording data' = false /\
    maxSamples data' = 2 /\
    recorded data' = 2.
Proof.
  apply (partial_buffer_at_limit (Some [zero_sample; zero_sample; zero_sample]) 3
           (after_callback None 1 (setup_with_limit 2)));
    vm_compute; try congruence. lia.
Defined.

(** ** C5: the 431-buffer scenario *)

(** While whole buffers fit under the limit and nobody lowers the flag, each
    invocation appends its [framesPerBuffer] frames and returns
    [paContinue]. *)
Lemma exec_whole_buffers (framesPerBuffer : Z) (inputs : list (option (list float))) :
  forall data : RecordData,
  0 <= framesPerBuffer ->
  maxSamples data + framesPerBuffer <= size_t_max ->
  within_limit data ->
  recording data = true ->
  Forall (full_buffer framesPerBuffer) inputs ->
  recorded data + framesPerBuffer * Z.of_nat (length inputs) <= maxSamples data ->
  exists data',
    exec (map (fun i => Invoke i framesPerBuffer) inputs) data =
      Some (data', repeat paContinue (length inputs)) /\
    recorded data' = recorded data + framesPerBuffer * Z.of_nat (length inputs) /\
    recording data' = true /\
    maxSamples data' = maxSamples data.
Proof.
  induction inputs as [|i inputs IH]; intros data H0 Hmax Hin Hflag Hall Hfit.
  - exists data. simpl. repeat split; auto; lia.
  - inversion Hall as [|i' inputs' Hi Hrest]; subst.
    pose proof (recorded_nonneg data) as Hr.
    assert (Hok : event_ok (maxSamples data) (Invoke i framesPerBuffer))
      by (unfold event_ok, full_buffer in *; auto).
    pose proof (event_ok_readable _ _ _ Hin Hok) as Hread.
    pose proof (frames_to_record_clamped _ _ Hin H0 Hmax) as Hn.
    assert (Hlen : Z.of_nat (length (i :: inputs)) = 1 + Z.of_nat (length inputs))
      by (simpl length; lia).
    rewrite Hlen in Hfit.
    assert (Hmul : 0 <= framesPerBuffer * Z.of_nat (length inputs))
      by (apply Z.mul_nonneg_nonneg; lia).
    assert (Hhit : hits_limit framesPerBuffer data = false).
    { rewrite hits_limit_no_wrap by (destruct Hin; lia).
      apply andb_false_iff. left. rewrite Z.gtb_ltb. apply Z.ltb_ge. lia. }
    pose proof (recorded_after_callback _ _ _ Hread) as Hrec.
    rewrite Hn, Z.min_l, Z2Nat.id in Hrec by lia.
    destruct (IH (after_callback i framesPerBuffer data)) as (data' & Hex & Hrec' & Hflag' & Hmax');
      try assumption.
    + unfold within_limit in *. rewrite Hrec. simpl. lia.
    + unfold after_callback; simpl. now rewrite Hflag, Hhit.
    + rewrite Hrec. simpl maxSamples. lia.
    + exists data'. split.
      * pose proof (step_invoke _ _ _ Hread) as Hstep.
        rewrite Hflag, Hhit in Hstep.
        apply (exec_cons _ _ _ _ _ [paContinue] _ Hstep Hex).
      * rewrite Hrec', Hrec, Hlen. simpl in Hmax'. repeat split; auto; lia.
Qed.

(** C5: with the configuration of [main] (44100 Hz, one channel, 5 seconds,
    so [maxSamples = 220500]), a capture of 431 consecutive invocations of
    512 frames each, whatever the input buffers and with the stop signal
    never raised, ends with exactly 220500 samples; the first 430 invocations
    return "continue" and the 431st returns "complete". *)
Theorem capture_431_buffers (inputs : list (option (list float))) :
  length inputs = 431%nat ->
  Forall (full_buffer 512) inputs ->
  exists data rs,
    exec (map (fun i => Invoke i 512) inputs) main_setup = Some (data, rs) /\
    maxSamples data = NUM_SECONDS * SAMPLE_RATE * NUM_CHANNELS /\
    recorded data = 220500 /\
    rs = repeat paContinue 430 ++ [paComplete] /\
    nth_error rs 430 = Some paComplete /\
    recording data = false.
Proof.
  intros Hlen Hall.
  assert (Hne : inputs <> []) by (intros ->; discriminate).
  pose proof (app_removelast_last None Hne) as Hsplit.
  set (front := removelast inputs) in *. set (final := last inputs None) in *.
  assert (Hfront : length front = 430%nat).
  { apply (f_equal (@length _)) in Hsplit.
    rewrite length_app in Hsplit. simpl in Hsplit. lia. }
  rewrite Hsplit in Hall. apply Forall_app in Hall. destruct Hall as [Hall Hfinal].
  inversion Hfinal as [|x l Hx _]; subst x l.
  destruct main_setup_within_limit as [Hin _].
  destruct (exec_whole_buffers 512 front main_setup)
    as (data1 & Hex & Hrec & Hflag & Hmax).
  { lia. }
  { unfold size_t_max. rewrite main_setup_maxSamples. lia. }
  { exact Hin. }
  { reflexivity. }
  { exact Hall. }
  { rewrite Hfront. vm_compute. discriminate. }
  rewrite Hfront in Hex, Hrec. rewrite main_setup_maxSamples in Hmax.
  change (recorded main_setup) with 0 in Hrec.
  assert (Hin1 : within_limit data1) by (unfold within_limit; lia).
  assert (Hread : readable final 512 data1).
  { apply event_ok_readable; [exact Hin1|].
    unfold event_ok, size_t_max. rewrite Hmax. repeat split; try lia. exact Hx. }
  assert (Hhit : hits_limit 512 data1 = true)
    by (apply hits_limit_at_limit; unfold size_t_max; lia).
  pose proof (recordCallback_readable _ _ _ Hread) as Hcall.
  rewrite Hhit, andb_false_r in Hcall.
  pose proof (recorded_after_callback _ _ _ Hread) as Hrec2.
  rewrite frames_to_record_clamped in Hrec2
    by (try exact Hin1; unfold size_t_max; lia).
  exists (after_callback final 512 data1), (repeat paContinue 430 ++ [paComplete]).
  split.
  { rewrite Hsplit, map_app.
    apply (exec_app _ _ _ _ _ _ _ Hex). simpl. rewrite Hcall. reflexivity. }
  split; [simpl maxSamples; rewrite Hmax; reflexivity|].
  split; [lia|]. split; [reflexivity|].
  split; [reflexivity|].
  unfold after_callback; simpl. now rewrite Hhit, andb_false_r.
Qed.

Lemma capture_431_buffers_witness :
  exists data rs,
    exec (map (fun i => Invoke i 512) (repeat None 431)) main_setup =
      Some (data, rs) /\
    maxSamples data = NUM_SECONDS * SAMPLE_RATE * NUM_CHANNELS /\
    recorded data = 220500 /\
    rs = repeat paContinue 430 ++ [paComplete] /\
    nth_error rs 430 = Some paComplete /\
    recording data = false.
Proof.
  apply (capture_431_buffers (repeat None 431)).
  - apply repeat_length.
  - apply Forall_forall. intros i Hi. apply repeat_spec in Hi. subst i.
    simpl. exact I.
Defined.

(** ** C6: exit codes of [main] *)

Lemma capture_trace_ok (w : World) :
  delivered_ok w -> Forall (event_ok 220500) (capture_trace w).
Proof.
  unfold delivered_ok, capture_trace. intros Hall.
  apply Forall_app in Hall. destruct Hall as [Hb Ha].
  assert (Hmap : forall l : list (option (list float)),
             Forall (full_buffer FRAMES_PER_BUFFER) l ->
             Forall (event_ok 220500) (map (fun i => Invoke i FRAMES_PER_BUFFER) l)).
  { intros l Hl. apply Forall_map. revert Hl. apply Forall_impl.
    intros i Hi. unfold event_ok, size_t_max.
    split; [discriminate|]. split; [discriminate|exact Hi]. }
  apply Forall_app. split; [apply Hmap; exact Hb|].
  constructor; [exact I|apply Hmap; exact Ha].
Qed.

Lemma capture_defined (w : World) :
  delivered_ok w ->
  exists data rs, exec (capture_trace w) main_setup = Some (data, rs).
Proof.
  intros Hok. destruct main_setup_within_limit as [Hin Hres].
  destruct (exec_within_limit (capture_trace w) main_setup Hin Hres)
    as (data & rs & Hex & _).
  - rewrite main_setup_maxSamples. apply capture_trace_ok. exact Hok.
  - exists data, rs. exact Hex.
Qed.

(** The exit code is decided by the checked stages alone. *)
Lemma main_exit_code (w : World) (data : RecordData)
  (rs : list PaStreamCallbackResult) :
  exec (capture_trace w) main_setup = Some (data, rs) ->
  exists out,
    main w = Some out /\
    exit_code out = if some_stage_failed w then 1 else 0.
Proof.
  intros Hex. unfold main, handlePaError, some_stage_failed.
  rewrite Hex. unfold bind, fst.
  destruct (Pa_Initialize w =? paNoError);
    destruct (Pa_GetDefaultInputDevice w =? paNoDevice);
    destruct (Pa_OpenStream w =? paNoError);
    destruct (Pa_StartStream w =? paNoError);
    destruct (Pa_StopStream w =? paNoError);
    destruct (Pa_CloseStream w =? paNoError);
    destruct (sf_open w);
    destruct (sf_close w =? 0);
    simpl; eexists; split; reflexivity.
Qed.





(** ** C7: silence substitution *)

(** C7: when the input buffer is absent the callback appends exactly
    [framesToRecord] samples, all of them zero, where [framesToRecord] is the
    count computed before the branch on the input: an invocation on the same
    state with the same frame count and a present buffer appends the same
    number of samples and returns the same signal.  With a limit set, the
    buffer within it and no wrap-around, that count is
    [min framesPerBuffer (maxSamples - length)]. *)
Theorem absent_input_appends_zeros (framesPerBuffer : Z) (data : RecordData) :
  exists data' r,
    recordCallback None framesPerBuffer data = Some (data', r) /\
    samples data' =
      samples data
      ++ repeat zero_sample (Z.to_nat (frames_to_record framesPerBuffer data)) /\
    length (samples data') =
      (length (samples data)
       + Z.to_nat (frames_to_record framesPerBuffer data))%nat /\
    (forall rptr data'' r',
       recordCallback (Some rptr) framesPerBuffer data = Some (data'', r') ->
       samples data'' =
         samples data
         ++ firstn (Z.to_nat (frames_to_record framesPerBuffer data)) rptr /\
       length (samples data'') = length (samples data') /\
       r' = r) /\
    (within_limit data ->
     0 <= framesPerBuffer ->
     maxSamples data + framesPerBuffer <= size_t_max ->
     frames_to_record framesPerBuffer data =
     Z.min framesPerBuffer (maxSamples data - recorded data)).
Proof.
  exists (after_callback None framesPerBuffer data),
    (result_of_flag (recording data && negb (hits_limit framesPerBuffer data))).
  assert (Hzeros : samples (after_callback None framesPerBuffer data) =
            samples data
            ++ repeat zero_sample (Z.to_nat (frames_to_record framesPerBuffer data))).
  { unfold samples, after_callback; simpl. apply push_all_elems. }
  split; [apply recordCallback_readable; exact I|].
  split; [exact Hzeros|].
  split; [rewrite Hzeros, length_app, repeat_length; reflexivity|].
  split; [|apply frames_to_record_clamped].
  intros rptr data'' r' Hcall.
  pose proof (recordCallback_returns _ _ _ _ Hcall) as Hread.
  rewrite (recordCallback_readable _ _ _ Hread) in Hcall.
  injection Hcall as <- <-.
  assert (Hsome : samples (after_callback (Some rptr) framesPerBuffer data) =
            samples data
            ++ firstn (Z.to_nat (frames_to_record framesPerBuffer data)) rptr).
  { unfold samples, after_callback; simpl. apply push_all_elems. }
  split; [exact Hsome|]. split; [|reflexivity].
  rewrite Hsome, Hzeros, !length_app, repeat_length.
  rewrite firstn_length_le by exact Hread. reflexivity.
Qed.

Lemma absent_input_appends_zeros_witness :
  exists data' r,
    recordCallback None 3 (after_callback None 1 (setup_with_limit 2)) =
      Some (data', r) /\
    samples data' = [zero_sample; zero_sample].
Proof.
  destruct (absent_input_appends_zeros 3 (after_callback None 1 (setup_with_limit 2)))
    as (data' & r & Hcall & Hsamples & _).
  exists data', r. split; [exact Hcall|]. rewrite Hsamples. reflexivity.
Defined.

(** ** C8: the callback only appends *)

(** C8: for every invocation whose reads stay inside the input buffer, the
    buffer after the invocation is the buffer before it followed by the
    newly recorded samples, these being the first [framesToRecord] samples of
    the input in input order (zeros for an absent input); so every sample
    recorded earlier is still at its position. *)
Theorem callback_only_appends (inputBuffer : option (list float))
  (framesPerBuffer : Z) (data : RecordData) :
  readable inputBuffer framesPerBuffer data ->
  exists data' r new,
    recordCallback inputBuffer framesPerBuffer data = Some (data', r) /\
    samples data' = samples data ++ new /\
    new = match inputBuffer with
          | Some rptr =>
              firstn (Z.to_nat (frames_to_record framesPerBuffer data)) rptr
          | None =>
              repeat zero_sample (Z.to_nat (frames_to_record framesPerBuffer data))
          end /\
    firstn (length (samples data)) (samples data') = samples data /\
    (forall k : nat,
       (k < length (samples data))%nat ->
       nth_error (samples data') k = nth_error (samples data) k) /\
    (length (samples data) <= length (samples data'))%nat.
Proof.
  intros Hread.
  exists (after_callback inputBuffer framesPerBuffer data),
    (result_of_flag (recording data && negb (hits_limit framesPerBuffer data))),
    (appended inputBuffer (Z.to_nat (frames_to_record framesPerBuffer data))).
  assert (Happ : samples (after_callback inputBuffer framesPerBuffer data) =
            samples data
            ++ appended inputBuffer
                 (Z.to_nat (frames_to_record framesPerBuffer data))).
  { unfold samples, after_callback; simpl. apply push_all_elems. }
  split; [apply recordCallback_readable; exact Hread|].
  split; [exact Happ|].
  split; [destruct inputBuffer; reflexivity|].
  rewrite Happ. split.
  { rewrite firstn_app, Nat.sub_diag, firstn_all. simpl. apply app_nil_r. }
  split.
  { intros k Hk. apply nth_error_app1. exact Hk. }
  rewrite length_app. lia.
Qed.

Lemma callback_only_appends_witness :
  exists data' r new,
    recordCallback (Some [zero_sample; S754_infinity false; S754_zero true]) 3
      (after_callback None 1 (setup_with_limit 3)) = Some (data', r) /\
    samples data' = [zero_sample] ++ new /\
    new = [zero_sample; S754_infinity false].
Proof.
  destruct (callback_only_appends
              (Some [zero_sample; S754_infinity false; S754_zero true]) 3
              (after_callback None 1 (setup_with_limit 3)))
    as (data' & r & new & Hcall & Hsamples & Hnew & _).
  - vm_compute. lia.
  - exists data', r, new. split; [exact Hcall|]. split; [exact Hsamples|].
    rewrite Hnew. reflexivity.
Defined.

(** ** C9: no reallocation during capture *)

Lemma push_back_in_place_iff (x : float) (v : Vec.vector) :
  Vec.reallocations (Vec.push_back x v) = Vec.reallocations v <->
  Vec.size v < Vec.capacity v.
Proof.
  unfold Vec.push_back.
  destruct (Vec.size v <? Vec.capacity v) eqn:Hlt; simpl.
  - apply Z.ltb_lt in Hlt. tauto.
  - apply Z.ltb_ge in Hlt. split; [intros H; exfalso; lia|lia].
Qed.

(** The count of reallocations never goes down. *)
Lemma push_back_reallocations_le (x : float) (v : Vec.vector) :
  (Vec.reallocations v <= Vec.reallocations (Vec.push_back x v))%nat.
Proof.
  unfold Vec.push_back. destruct (Vec.size v <? Vec.capacity v); simpl; lia.
Qed.

(** C9: in every capture of [main] (the buffer empty with [maxSamples]
    slots reserved on line 77 before the stream is opened, the transport
    handing the callback [FRAMES_PER_BUFFER] frames per invocation, input
    buffers present or absent, the flag lowered by line 110 at any point) the
    run of the callback is defined and no append reallocates: after the
    capture the count of reallocations and the capacity are what they were
    when the transport started, and the length is within the capacity.  The
    count never goes down, and a [push_back] leaves it unchanged exactly when
    it finds [size < capacity]. *)
Theorem no_reallocation_during_capture (w : World) :
  delivered_ok w ->
  exists data rs,
    exec (capture_trace w) main_setup = Some (data, rs) /\
    samples main_setup = [] /\
    Vec.capacity (recordedSamples main_setup) = maxSamples main_setup /\
    Vec.reallocations (recordedSamples data) =
      Vec.reallocations (recordedSamples main_setup) /\
    Vec.capacity (recordedSamples data) =
      Vec.capacity (recordedSamples main_setup) /\
    recorded data <= Vec.capacity (recordedSamples data) /\
    (forall (x : float) (v : Vec.vector),
       (Vec.reallocations v <= Vec.reallocations (Vec.push_back x v))%nat /\
       (Vec.reallocations (Vec.push_back x v) = Vec.reallocations v <->
        Vec.size v < Vec.capacity v)).
Proof.
  intros Hok.
  destruct main_setup_within_limit as [Hin Hres].
  destruct (exec_within_limit (capture_trace w) main_setup Hin Hres)
    as (data & rs & Hex & [_ Hle] & Hres' & Hmax & Hc & Hr).
  { rewrite main_setup_maxSamples. apply capture_trace_ok. exact Hok. }
  exists data, rs. unfold reserved in Hres'.
  split; [exact Hex|]. split; [reflexivity|]. split; [reflexivity|].
  split; [exact Hr|]. split; [exact Hc|]. split; [lia|].
  intros x v. split;
    [apply push_back_reallocations_le|apply push_back_in_place_iff].
Qed.

Lemma no_reallocation_during_capture_witness :
  exists data rs,
    exec [Invoke None 512; StopSignal] main_setup = Some (data, rs) /\
    Vec.reallocations (recordedSamples data) = 1%nat /\
    Vec.capacity (recordedSamples data) = 220500.
Proof.
  destruct (no_reallocation_during_capture short_write_world)
    as (data & rs & Hex & _ & _ & Hr & Hc & _).
  - unfold delivered_ok. simpl. repeat constructor.
  - exists data, rs. split; [exact Hex|]. split; [exact Hr|exact Hc].
Defined.

(** The same for any limit and any frame counts: when the buffer starts
    empty with [maxSamples > 0] slots reserved, every run of callback
    invocations whose frame counts leave the 64-bit sum unwrapped
    ([maxSamples + framesPerBuffer <= 2^64 - 1]) and whose input buffers hold
    the frames, with the stop signal anywhere, is defined, keeps the length
    within [maxSamples] and performs no reallocation. *)
Theorem no_reallocation_within_reserve (data : RecordData) (tr : list event) :
  0 < maxSamples data ->
  samples data = [] ->
  Vec.capacity (recordedSamples data) = maxSamples data ->
  Forall (event_ok (maxSamples data)) tr ->
  exists data' rs,
    exec tr data = Some (data', rs) /\
    maxSamples data' = maxSamples data /\
    recorded data' <= maxSamples data' /\
    Vec.reallocations (recordedSamples data') =
      Vec.reallocations (recordedSamples data) /\
    Vec.capacity (recordedSamples data') = Vec.capacity (recordedSamples data).
Proof.
  intros Hpos Hempty Hcap Hall.
  assert (Hin : within_limit data).
  { unfold within_limit, recorded, Vec.size. unfold samples in Hempty.
    rewrite Hempty. simpl. lia. }
  assert (Hres : reserved data) by (unfold reserved; lia).
  destruct (exec_within_limit tr data Hin Hres Hall)
    as (data' & rs & Hex & [_ Hle] & Hres' & Hmax & Hc & Hr).
  exists data', rs.
  split; [exact Hex|]. split; [exact Hmax|]. split; [exact Hle|].
  split; [exact Hr|exact Hc].
Qed.

Lemma no_reallocation_within_reserve_witness :
  exists data' rs,
    exec [Invoke None 2; StopSignal; Invoke (Some (repeat zero_sample 5)) 5]
      (setup_with_limit 4) = Some (data', rs) /\
    recorded data' <= 4 /\
    Vec.capacity (recordedSamples data') = 4.
Proof.
  destruct (no_reallocation_within_reserve (setup_with_limit 4)
              [Invoke None 2; StopSignal;
               Invoke (Some (repeat zero_sample 5)) 5])
    as (data' & rs & Hex & Hmax & Hle & _ & Hc).
  - reflexivity.
  - reflexivity.
  - reflexivity.
  - repeat constructor; vm_compute; discriminate.
  - exists data', rs. split; [exact Hex|]. split; [|exact Hc].
    rewrite Hmax in Hle. exact Hle.
Defined.

(** ** C10: the flag only goes down *)

Lemma step_flag_monotone (e : event) (data data' : RecordData)
  (rs : list PaStreamCallbackResult) :
  step e data = Some (data', rs) ->
  recording data' = true -> recording data = true.
Proof.
  destruct e as [inputBuffer framesPerBuffer|]; simpl.
  - destruct (recordCallback inputBuffer framesPerBuffer data) as [[d r]|] eqn:Hcall;
      simpl; [|discriminate].
    intros Hstep. injection Hstep as <- <-.
    pose proof (recordCallback_returns _ _ _ _ Hcall) as Hread.
    rewrite (recordCallback_readable _ _ _ Hread) in Hcall.
    injection Hcall as <- <-. simpl.
    intros Hflag. apply andb_true_iff in Hflag. tauto.
  - intros Hstep. injection Hstep as <- <-. discriminate.
Qed.

Lemma step_flag_down (e : event) (data data' : RecordData)
  (rs : list PaStreamCallbackResult) :
  recording data = false ->
  step e data = Some (data', rs) ->
  recording data' = false /\ Forall (eq paComplete) rs.
Proof.
  intros Hdown Hstep.
  split.
  - destruct (recording data') eqn:Hflag; [|reflexivity].
    rewrite (step_flag_monotone _ _ _ _ Hstep Hflag) in Hdown. discriminate.
  - destruct e as [inputBuffer framesPerBuffer|]; simpl in Hstep.
    + destruct (recordCallback inputBuffer framesPerBuffer data) as [[d r]|] eqn:Hcall;
        simpl in Hstep; [|discriminate].
      injection Hstep as <- <-.
      pose proof (recordCallback_returns _ _ _ _ Hcall) as Hread.
      rewrite (recordCallback_readable _ _ _ Hread), Hdown in Hcall.
      injection Hcall as <- <-. repeat constructor.
    + injection Hstep as <- <-. constructor.
Qed.

Lemma exec_flag_down (tr : list event) :
  forall (data data' : RecordData) (rs : list PaStreamCallbackResult),
  recording data = false ->
  exec tr data = Some (data', rs) ->
  recording data' = false /\ Forall (eq paComplete) rs.
Proof.
  induction tr as [|e tr IH]; intros data data' rs Hdown Hex; simpl in Hex.
  - injection Hex as <- <-. split; [exact Hdown|constructor].
  - destruct (step e data) as [[d1 r1]|] eqn:Hstep; simpl in Hex; [|discriminate].
    destruct (exec tr d1) as [[d2 r2]|] eqn:Hrest; simpl in Hex; [|discriminate].
    injection Hex as <- <-.
    destruct (step_flag_down _ _ _ _ Hdown Hstep) as [Hdown1 Hr1].
    destruct (IH _ _ _ Hdown1 Hrest) as [Hdown2 Hr2].
    split; [exact Hdown2|]. apply Forall_app. split; assumption.
Qed.

(** C10: no event of a capture raises the flag: after a callback invocation
    or the stop signal of [main] the flag is up only if it was up before.
    Hence once an invocation has returned "complete" the flag is down, it is
    down after any further events, every later invocation that returns
    returns "complete", and a later invocation returns whenever its reads stay
    inside its input buffer, for any frame count. *)
Theorem flag_never_raised (inputBuffer : option (list float))
  (framesPerBuffer : Z) (data data1 : RecordData) :
  recordCallback inputBuffer framesPerBuffer data = Some (data1, paComplete) ->
  (forall (e : event) (d d' : RecordData) (rs : list PaStreamCallbackResult),
     step e d = Some (d', rs) -> recording d' = true -> recording d = true) /\
  recording data1 = false /\
  (forall (tr : list event) (data2 : RecordData)
          (rs : list PaStreamCallbackResult),
     exec tr data1 = Some (data2, rs) ->
     recording data2 = false /\ Forall (eq paComplete) rs) /\
  (forall (tr : list event) (data2 : RecordData)
          (rs : list PaStreamCallbackResult)
          (inputBuffer' : option (list float)) (framesPerBuffer' : Z),
     exec tr data1 = Some (data2, rs) ->
     readable inputBuffer' framesPerBuffer' data2 ->
     exists data3,
       recordCallback inputBuffer' framesPerBuffer' data2 =
       Some (data3, paComplete)).
Proof.
  intros Hcall.
  assert (Hdown : recording data1 = false).
  { pose proof (recordCallback_returns _ _ _ _ Hcall) as Hread.
    rewrite (recordCallback_readable _ _ _ Hread) in Hcall.
    injection Hcall as <- Hr. simpl.
    destruct (recording data && negb (hits_limit framesPerBuffer data));
      [discriminate|reflexivity]. }
  split; [exact step_flag_monotone|]. split; [exact Hdown|].
  split; [intros tr data2 rs; apply exec_flag_down; exact Hdown|].
  intros tr data2 rs inputBuffer' framesPerBuffer' Hex Hread.
  destruct (exec_flag_down _ _ _ _ Hdown Hex) as [Hdown2 _].
  exists (after_callback inputBuffer' framesPerBuffer' data2).
  rewrite (recordCallback_readable _ _ _ Hread), Hdown2. reflexivity.
Qed.

Lemma flag_never_raised_witness :
  exists data3,
    recordCallback None 512
      (after_callback (Some [zero_sample]) 1
         (after_callback None 3 (setup_with_limit 2))) =
    Some (data3, paComplete).
Proof.
  destruct (flag_never_raised None 3 (setup_with_limit 2)
              (after_callback None 3 (setup_with_limit 2)))
    as (_ & _ & _ & Hlater).
  - reflexivity.
  - apply (Hlater [Invoke (Some [zero_sample]) 1]
             (after_callback (Some [zero_sample]) 1
                (after_callback None 3 (setup_with_limit 2)))
             [paComplete] None 512).
    + reflexivity.
    + exact I.
Defined.

(** * Further properties of the code *)

(** ** What a run records *)

Lemma firstn_repeat_min (x : float) (k n : nat) :
  firstn k (repeat x n) = repeat x (Nat.min k n).
Proof.
  revert n. induction k as [|k IH]; intros n; simpl; [reflexivity|].
  destruct n as [|n]; simpl; [reflexivity|]. now rewrite IH.
Qed.

Lemma firstn_appended (inputBuffer : option (list float)) (k n : nat) :
  firstn k (appended inputBuffer n) = appended inputBuffer (Nat.min k n).
Proof.
  destruct inputBuffer as [rptr|]; simpl.
  - apply firstn_firstn.
  - apply firstn_repeat_min.
Qed.

Lemma firstn_firstn_app (n : nat) (a b : list float) :
  firstn n (firstn n a ++ b) = firstn n (a ++ b).
Proof.
  destruct (Nat.le_gt_cases (length a) n) as [Hle|Hgt].
  - now rewrite (firstn_all2 a) by exact Hle.
  - rewrite !firstn_app, firstn_firstn, Nat.min_id, length_firstn.
    replace (n - Nat.min n (length a))%nat with 0%nat by lia.
    replace (n - length a)%nat with 0%nat by lia.
    reflexivity.
Qed.

(** One in-range invocation records what fits of what it is handed. *)
Lemma after_callback_samples (inputBuffer : option (list float))
  (framesPerBuffer : Z) (data : RecordData) :
  within_limit data ->
  event_ok (maxSamples data) (Invoke inputBuffer framesPerBuffer) ->
  samples (after_callback inputBuffer framesPerBuffer data) =
    firstn (Z.to_nat (maxSamples data))
      (samples data ++ appended inputBuffer (Z.to_nat framesPerBuffer)) /\
  within_limit (after_callback inputBuffer framesPerBuffer data).
Proof.
  intros Hin Hok.
  pose proof (event_ok_readable _ _ _ Hin Hok) as Hread.
  destruct Hok as (H0 & Hmax & Hbuf).
  pose proof (frames_to_record_clamped _ _ Hin H0 Hmax) as Hn.
  pose proof (recorded_after_callback _ _ _ Hread) as Hrec.
  destruct Hin as [Hpos Hle].
  split.
  - unfold samples, after_callback; simpl. rewrite push_all_elems, Hn.
    unfold recorded, Vec.size in *.
    rewrite firstn_app, firstn_all2 by lia.
    rewrite firstn_appended. f_equal. f_equal. lia.
  - unfold within_limit. rewrite Hrec, Hn. simpl maxSamples. lia.
Qed.

(** Runs of in-range events are defined and stay within the limit, whatever
    storage was reserved. *)
Lemma exec_in_range (tr : list event) :
  forall data : RecordData,
  within_limit data ->
  Forall (event_ok (maxSamples data)) tr ->
  exists data' rs,
    exec tr data = Some (data', rs) /\
    within_limit data' /\
    maxSamples data' = maxSamples data.
Proof.
  induction tr as [|e tr IH]; intros data Hin Hall.
  - exists data, []. auto.
  - inversion Hall as [|e' tr' He Htr]; subst.
    destruct e as [inputBuffer framesPerBuffer|].
    + destruct (after_callback_samples _ _ _ Hin He) as [_ Hin'].
      destruct (IH (after_callback inputBuffer framesPerBuffer data) Hin' Htr)
        as (data' & rs & Hex & Hin2 & Hmax).
      exists data', ([result_of_flag
                  (recording data && negb (hits_limit framesPerBuffer data))] ++ rs).
      split; [|auto].
      apply (exec_cons _ _ _ _ _ _ rs
               (step_invoke _ _ _ (event_ok_readable _ _ _ Hin He)) Hex).
    + destruct (IH (set_recording false data) Hin Htr)
        as (data' & rs & Hex & Hin2 & Hmax).
      exists data', rs. split; [|auto].
      apply (exec_cons StopSignal tr data _ _ [] rs eq_refl Hex).
Qed.

(** The samples after an in-range run, as a function of the samples before
    it and of the stream delivered. *)
Lemma exec_samples_in_range (tr : list event) :
  forall data : RecordData,
  within_limit data ->
  Forall (event_ok (maxSamples data)) tr ->
  exists data' rs,
    exec tr data = Some (data', rs) /\
    samples data' =
      firstn (Z.to_nat (maxSamples data)) (samples data ++ delivered_stream tr).
Proof.
  induction tr as [|e tr IH]; intros data Hin Hall.
  - exists data, []. split; [reflexivity|].
    unfold delivered_stream; simpl. rewrite app_nil_r.
    symmetry. apply firstn_all2.
    destruct Hin as [_ Hle]. unfold recorded, Vec.size, samples in *. lia.
  - inversion Hall as [|e' tr' He Htr]; subst.
    destruct e as [inputBuffer framesPerBuffer|].
    + destruct (after_callback_samples _ _ _ Hin He) as [Hs Hin'].
      destruct (IH (after_callback inputBuffer framesPerBuffer data) Hin' Htr)
        as (data' & rs & Hex & Hs').
      exists data', ([result_of_flag
                  (recording data && negb (hits_limit framesPerBuffer data))] ++ rs).
      split.
      * apply (exec_cons _ _ _ _ _ _ rs
                 (step_invoke _ _ _ (event_ok_readable _ _ _ Hin He)) Hex).
      * rewrite Hs', Hs. simpl maxSamples.
        rewrite firstn_firstn_app. unfold delivered_stream; simpl.
        now rewrite app_assoc.
    + destruct (IH (set_recording false data) Hin Htr)
        as (data' & rs & Hex & Hs').
      exists data', rs. split.
      * apply (exec_cons StopSignal tr data _ _ [] rs eq_refl Hex).
      * exact Hs'.
Qed.

Lemma recorded_of_samples (data : RecordData) (l : list float) :
  samples data = l -> recorded data = Z.of_nat (length l).
Proof. intros <-. reflexivity. Qed.

(** The recorded buffer is the delivered stream cut at the limit: for every
    state with a limit set and the buffer within it, and every run whose
    frame counts leave the 64-bit sum unwrapped and whose input buffers hold
    their frames, the buffer after the run is the buffer before it followed by
    the samples delivered since (the first [framesPerBuffer] samples of each
    input in order, zeros for an absent input), truncated to [maxSamples].
    The stop signal has no part in it, and the length is the smaller of
    [maxSamples] and the number of samples on offer. *)
Theorem recorded_is_the_stream_cut_at_the_limit (tr : list event) :
  forall data : RecordData,
  within_limit data ->
  Forall (event_ok (maxSamples data)) tr ->
  exists data' rs,
    exec tr data = Some (data', rs) /\
    samples data' =
      firstn (Z.to_nat (maxSamples data)) (samples data ++ delivered_stream tr) /\
    recorded data' =
      Z.min (recorded data + Z.of_nat (length (delivered_stream tr)))
            (maxSamples data) /\
    (forall k : nat,
       (k < length (samples data))%nat ->
       nth_error (samples data') k = nth_error (samples data) k).
Proof.
  intros data Hin Hall.
  destruct (exec_samples_in_range tr data Hin Hall) as (data' & rs & Hex & Hs).
  exists data', rs. split; [exact Hex|]. split; [exact Hs|].
  destruct Hin as [Hpos Hle].
  assert (Hlen : (length (samples data) <= Z.to_nat (maxSamples data))%nat)
    by (unfold recorded, Vec.size, samples in *; lia).
  split.
  - rewrite (recorded_of_samples _ _ Hs), length_firstn, length_app.
    unfold recorded, Vec.size. fold (samples data). lia.
  - intros k Hk. rewrite Hs, firstn_app, (firstn_all2 (samples data)) by exact Hlen.
    apply nth_error_app1. exact Hk.
Qed.

Lemma recorded_is_the_stream_cut_at_the_limit_witness :
  exists data' rs,
    exec [Invoke (Some [S754_infinity false; S754_zero true]) 2; StopSignal;
          Invoke None 2] (setup_with_limit 3) = Some (data', rs) /\
    samples data' = [S754_infinity false; S754_zero true; zero_sample] /\
    recorded data' = 3.
Proof.
  destruct (recorded_is_the_stream_cut_at_the_limit
              [Invoke (Some [S754_infinity false; S754_zero true]) 2; StopSignal;
               Invoke None 2] (setup_with_limit 3))
    as (data' & rs & Hex & Hs & Hrec & _).
  - vm_compute. intuition discriminate.
  - repeat constructor; vm_compute; discriminate.
  - exists data', rs. split; [exact Hex|]. split; [exact Hs|exact Hrec].
Defined.

(** ** When an uninterrupted capture completes *)

Lemma exec_invocations_length (framesPerBuffer : Z)
  (inputs : list (option (list float))) :
  forall (data data' : RecordData) (rs : list PaStreamCallbackResult),
  exec (map (fun i => Invoke i framesPerBuffer) inputs) data = Some (data', rs) ->
  length rs = length inputs.
Proof.
  induction inputs as [|i inputs IH]; intros data data' rs Hex; simpl in Hex.
  - injection Hex as <- <-. reflexivity.
  - destruct (recordCallback i framesPerBuffer data) as [[d1 r1]|];
      simpl in Hex; [|discriminate].
    destruct (exec (map (fun i => Invoke i framesPerBuffer) inputs) d1)
      as [[d2 r2]|] eqn:Hrest; simpl in Hex; [|discriminate].
    injection Hex as <- <-. simpl. f_equal. exact (IH _ _ _ Hrest).
Qed.

Lemma invocations_ok (limit framesPerBuffer : Z)
  (inputs : list (option (list float))) :
  0 <= framesPerBuffer ->
  limit + framesPerBuffer <= size_t_max ->
  Forall (full_buffer framesPerBuffer) inputs ->
  Forall (event_ok limit) (map (fun i => Invoke i framesPerBuffer) inputs).
Proof.
  intros H0 Hmax Hall. apply Forall_map. revert Hall. apply Forall_impl.
  intros i Hi. unfold event_ok. auto.
Qed.

(** With the flag up and nobody lowering it, a capture fed [framesPerBuffer]
    frames per invocation answers "continue" exactly as many times as whole
    buffers fit in the headroom, [(maxSamples - length) / framesPerBuffer],
    and "complete" on every invocation after those; so the transport is told
    to stop by the first invocation that does not fit, which is one
    invocation after the buffer is full when the headroom is a multiple of
    [framesPerBuffer]. *)
Theorem continue_while_whole_buffers_fit (framesPerBuffer : Z)
  (inputs : list (option (list float))) (data : RecordData) :
  within_limit data ->
  recording data = true ->
  0 < framesPerBuffer ->
  maxSamples data + framesPerBuffer <= size_t_max ->
  Forall (full_buffer framesPerBuffer) inputs ->
  exists data',
    exec (map (fun i => Invoke i framesPerBuffer) inputs) data =
    Some (data',
          repeat paContinue
            (Nat.min (length inputs)
               (Z.to_nat ((maxSamples data - recorded data) / framesPerBuffer)))
          ++ repeat paComplete
               (length inputs
                - Z.to_nat ((maxSamples data - recorded data) / framesPerBuffer))).
Proof.
  intros Hin Hflag Hf Hmax Hall.
  pose proof (recorded_nonneg data) as Hr.
  destruct Hin as [Hpos Hle].
  set (q := Z.to_nat ((maxSamples data - recorded data) / framesPerBuffer)).
  assert (Hq : Z.of_nat q = (maxSamples data - recorded data) / framesPerBuffer).
  { unfold q. apply Z2Nat.id. apply Z.div_pos; lia. }
  assert (Hlow : framesPerBuffer * Z.of_nat q <= maxSamples data - recorded data).
  { rewrite Hq. apply Z.mul_div_le. exact Hf. }
  assert (Hhigh : maxSamples data - recorded data < framesPerBuffer * (Z.of_nat q + 1)).
  { rewrite Hq. pose proof (Z.mul_succ_div_gt (maxSamples data - recorded data)
                              framesPerBuffer Hf). lia. }
  destruct (Nat.le_gt_cases (length inputs) q) as [Hfew|Hmany].
  - destruct (exec_whole_buffers framesPerBuffer inputs data)
      as (data' & Hex & _); try assumption; try lia.
    { split; assumption. }
    { assert (framesPerBuffer * Z.of_nat (length inputs)
              <= framesPerBuffer * Z.of_nat q) by (apply Z.mul_le_mono_nonneg_l; lia).
      lia. }
    exists data'. rewrite Hex, Nat.min_l by exact Hfew.
    replace (length inputs - q)%nat with 0%nat by lia.
    now rewrite app_nil_r.
  - pose proof (firstn_skipn q inputs) as Hsplit.
    rewrite <- Hsplit in Hall. apply Forall_app in Hall.
    destruct Hall as [Hfront Hback].
    assert (Hlenf : length (firstn q inputs) = q)
      by (rewrite length_firstn; lia).
    assert (Hlenb : length (skipn q inputs) = (length inputs - q)%nat)
      by apply length_skipn.
    destruct (skipn q inputs) as [|x rest] eqn:Hskip; simpl in Hlenb; [lia|].
    inversion Hback as [|x' rest' Hx Hrest]; subst x' rest'.
    destruct (exec_whole_buffers framesPerBuffer (firstn q inputs) data)
      as (data1 & Hex1 & Hrec1 & Hflag1 & Hmax1); try assumption; try lia.
    { split; assumption. }
    rewrite Hlenf in Hex1, Hrec1.
    assert (Hin1 : within_limit data1) by (unfold within_limit; lia).
    assert (Hok : event_ok (maxSamples data1) (Invoke x framesPerBuffer))
      by (unfold event_ok; repeat split; try lia; exact Hx).
    pose proof (event_ok_readable _ _ _ Hin1 Hok) as Hread.
    assert (Hhit : hits_limit framesPerBuffer data1 = true)
      by (apply hits_limit_at_limit; lia).
    pose proof (step_invoke _ _ _ Hread) as Hstep.
    rewrite Hhit, andb_false_r in Hstep.
    destruct (after_callback_samples _ _ _ Hin1 Hok) as [_ Hin2].
    destruct (exec_in_range (map (fun i => Invoke i framesPerBuffer) rest)
                (after_callback x framesPerBuffer data1) Hin2)
      as (data2 & rs & Hex2 & _).
    { apply invocations_ok; simpl maxSamples; try lia. exact Hrest. }
    assert (Hdown : recording (after_callback x framesPerBuffer data1) = false)
      by (unfold after_callback; simpl; now rewrite Hhit, andb_false_r).
    destruct (exec_flag_down _ _ _ _ Hdown Hex2) as [_ Hall2].
    apply Forall_eq_repeat in Hall2.
    rewrite (exec_invocations_length _ _ _ _ _ Hex2) in Hall2.
    assert (Hmap : map (fun i => Invoke i framesPerBuffer) inputs =
                   map (fun i => Invoke i framesPerBuffer) (firstn q inputs)
                   ++ Invoke x framesPerBuffer
                      :: map (fun i => Invoke i framesPerBuffer) rest).
    { rewrite <- Hsplit at 1. rewrite map_app. reflexivity. }
    exists data2. rewrite Hmap.
    rewrite (exec_app _ _ _ _ _ _ _ Hex1
               (exec_cons _ _ _ _ _ _ _ Hstep Hex2)).
    rewrite Nat.min_r by lia. f_equal. f_equal.
    rewrite Hall2.
    replace (length inputs - q)%nat with (S (length rest)) by lia.
    reflexivity.
Qed.

Lemma continue_while_whole_buffers_fit_witness :
  exists data',
    exec (map (fun i => Invoke i 2) [None; Some [zero_sample; zero_sample]; None; None])
      (setup_with_limit 4) =
    Some (data', [paContinue; paContinue; paComplete; paComplete]).
Proof.
  apply (continue_while_whole_buffers_fit 2
           [None; Some [zero_sample; zero_sample]; None; None]
           (setup_with_limit 4)).
  - vm_compute. intuition discriminate.
  - reflexivity.
  - reflexivity.
  - vm_compute. discriminate.
  - repeat constructor; vm_compute; discriminate.
Defined.

(** ** Capture without a limit *)

(** With [maxSamples = 0] the guard of line 36 never fires: for every run
    whose input buffers hold their frames, whatever the frame counts, every
    invocation appends all the frames it is handed, nothing is truncated, and
    only the stop signal lowers the flag. *)
Theorem no_limit_when_maxSamples_is_zero (tr : list event) :
  forall data : RecordData,
  maxSamples data = 0 ->
  Forall holds_frames tr ->
  exists data' rs,
    exec tr data = Some (data', rs) /\
    samples data' = samples data ++ delivered_stream tr /\
    maxSamples data' = 0 /\
    (recording data' = true <-> recording data = true /\ ~ In StopSignal tr).
Proof.
  induction tr as [|e tr IH]; intros data Hzero Hall.
  - exists data, []. unfold delivered_stream; simpl. rewrite app_nil_r.
    repeat split; auto; tauto.
  - inversion Hall as [|e' tr' He Htr]; subst.
    destruct e as [inputBuffer framesPerBuffer|].
    + assert (Hhit : hits_limit framesPerBuffer data = false).
      { unfold hits_limit. rewrite Hzero. apply andb_false_r. }
      assert (Hn : frames_to_record framesPerBuffer data = framesPerBuffer).
      { unfold frames_to_record. now rewrite Hhit. }
      assert (Hread : readable inputBuffer framesPerBuffer data).
      { unfold readable. rewrite Hn. destruct inputBuffer as [rptr|]; [|trivial].
        simpl in He. unfold full_buffer in He. lia. }
      pose proof (step_invoke _ _ _ Hread) as Hstep.
      destruct (IH (after_callback inputBuffer framesPerBuffer data) Hzero Htr)
        as (data' & rs & Hex & Hs & Hmax & Hflag).
      exists data', ([result_of_flag
                  (recording data && negb (hits_limit framesPerBuffer data))] ++ rs).
      split; [exact (exec_cons _ _ _ _ _ _ rs Hstep Hex)|].
      split.
      { rewrite Hs. unfold samples at 1, after_callback; simpl.
        rewrite push_all_elems, Hn. unfold delivered_stream; simpl.
        now rewrite app_assoc. }
      split; [exact Hmax|].
      rewrite Hflag. unfold after_callback; simpl recording.
      rewrite Hhit, andb_true_r. simpl.
      split; [intros [H1 H2]; split; [exact H1|intros [H|H]; [discriminate|tauto]]
             |intros [H1 H2]; tauto].
    + destruct (IH (set_recording false data) Hzero Htr)
        as (data' & rs & Hex & Hs & Hmax & Hflag).
      exists data', rs.
      split; [exact (exec_cons StopSignal tr data _ _ [] rs eq_refl Hex)|].
      split; [exact Hs|]. split; [exact Hmax|].
      rewrite Hflag. simpl.
      split; [intros [H _]; discriminate|intros [_ H]; exfalso; apply H; now left].
Qed.

Lemma no_limit_when_maxSamples_is_zero_witness :
  exists data' rs,
    exec [Invoke None 2; Invoke (Some [S754_infinity false]) 1]
      RecordData_default = Some (data', rs) /\
    samples data' = [zero_sample; zero_sample; S754_infinity false] /\
    recording data' = true.
Proof.
  destruct (no_limit_when_maxSamples_is_zero
              [Invoke None 2; Invoke (Some [S754_infinity false]) 1]
              RecordData_default)
    as (data' & rs & Hex & Hs & _ & Hflag).
  - reflexivity.
  - repeat constructor; vm_compute; discriminate.
  - exists data', rs. split; [exact Hex|]. split; [exact Hs|].
    apply Hflag. split; [reflexivity|].
    intros [H|[H|[]]]; discriminate.
Defined.

(** ** What [main] reports *)

Lemma full_success_iff (w : World) :
  some_stage_failed w = false <-> full_success w.
Proof.
  unfold some_stage_failed, full_success.
  rewrite !orb_false_iff, !negb_false_iff, !Z.eqb_eq, Z.eqb_neq. tauto.
Qed.

(** The exit code of [main] is 0 exactly when every checked call succeeded
    (the five PortAudio calls, the device lookup, [sf_open] and [sf_close]),
    and 1 exactly when one of them failed; no other exit code occurs. *)
Theorem main_exits_zero_iff_every_stage_succeeded (w : World) :
  delivered_ok w ->
  exists out,
    main w = Some out /\
    (exit_code out = 0 <-> full_success w) /\
    (exit_code out = 1 <-> ~ full_success w).
Proof.
  intros Hok.
  destruct (capture_defined w Hok) as (data & rs & Hex).
  destruct (main_exit_code w data rs Hex) as (out & Hmain & Hcode).
  exists out. split; [exact Hmain|].
  rewrite Hcode, <- full_success_iff.
  destruct (some_stage_failed w); split; split; intros H;
    try discriminate; try reflexivity; try congruence.
Qed.

Lemma main_exits_zero_iff_every_stage_succeeded_witness :
  exists out, main short_write_world = Some out /\ exit_code out = 0.
Proof.
  destruct (main_exits_zero_iff_every_stage_succeeded short_write_world)
    as (out & Hmain & Hzero & _).
  - unfold delivered_ok. simpl. repeat constructor.
  - exists out. split; [exact Hmain|]. apply Hzero.
    unfold full_success. simpl. repeat split; discriminate.
Defined.

(** A failure is never silent and a success is always announced.  When
    [main] exits with 1 some check failed, and the last line on [stderr] is
    the diagnostic of the first check that failed, in the order [main] makes
    them: the PortAudio error with its stage name and code, the missing
    input device, the output file that cannot be opened, or the output file
    that cannot be closed; the only line that can precede it is the
    short-write report.  "Saved recording to recording.wav" is on [std::cout]
    exactly when [main] exits with 0, which happens exactly when no check
    failed, and [stderr] then holds at most the short-write report. *)
Theorem main_announces_how_it_ended (w : World) :
  delivered_ok w ->
  exists out,
    main w = Some out /\
    (exit_code out = 0 <->
     In (SavedRecordingTo OUTPUT_FILENAME) (out_log (console out))) /\
    (exit_code out = 1 ->
     exists earlier d,
       ending_diagnostic w = Some d /\
       err_log (console out) = earlier ++ [d] /\
       fatal d /\
       forall e, In e earlier -> ~ fatal e) /\
    (exit_code out = 0 ->
     ending_diagnostic w = None /\
     forall d, In d (err_log (console out)) -> ~ fatal d).
Proof.
  intros Hok.
  destruct (capture_defined w Hok) as (data & rs & Hex).
  unfold main, handlePaError, ending_diagnostic, checks_in_order.
  rewrite Hex. unfold bind, fst.
  main_cases w; simpl; eexists; (split; [reflexivity|]); simpl;
    (split; [split; [intros H; try discriminate H; tauto
                    |intros H; try reflexivity;
                     repeat (destruct H as [H|H]; try discriminate H);
                     try contradiction]|]);
    (split;
     [intros H; try discriminate H;
      first [ exists []; eexists;
              split; [reflexivity|]; split; [reflexivity|];
              split; [exact I|intros e []]
            | eexists [_]; eexists;
              split; [reflexivity|]; split; [reflexivity|];
              split; [exact I|];
              intros e [He|[]]; subst e; simpl; tauto ]|]);
    intros H; try discriminate H; (split; [reflexivity|]);
    intros d Hd;
    repeat (destruct Hd as [Hd|Hd]; try (subst d; simpl; tauto));
    try contradiction.
Qed.

Lemma main_announces_how_it_ended_witness :
  exists out earlier,
    main (mkWorld paNoError 0 paNoError paNoError [None] [] paNoError paNoError
            true 7 1) = Some out /\
    err_log (console out) = earlier ++ [ErrorClosingOutputFile] /\
    forall e, In e earlier -> ~ fatal e.
Proof.
  destruct (main_announces_how_it_ended
              (mkWorld paNoError 0 paNoError paNoError [None] [] paNoError
                 paNoError true 7 1))
    as (out & Hmain & _ & Hfail & _).
  - unfold delivered_ok. simpl. repeat constructor.
  - destruct Hfail as (earlier & d & Hd & Hlog & _ & Hearlier).
    + revert Hmain. vm_compute. intros H. injection H as <-. reflexivity.
    + vm_compute in Hd. injection Hd as <-.
      exists out, earlier. split; [exact Hmain|]. split; [exact Hlog|exact Hearlier].
Defined.

(** [handlePaError] ends the run at the first PortAudio call that fails: a
    PortAudio diagnostic on [stderr] carries the stage name and the nonzero
    error code of one of the five checked calls, it is the only line on
    [stderr], the exit code is 1, and nothing beyond "Recording for 5
    seconds..." has been printed, so no output file was opened or written. *)
Theorem portaudio_error_ends_the_run (w : World) :
  delivered_ok w ->
  exists out,
    main w = Some out /\
    forall (stage : string) (err : PaError),
      In (PortAudioError stage err) (err_log (console out)) ->
      err <> paNoError /\
      In (stage, err) (checked_calls w) /\
      err_log (console out) = [PortAudioError stage err] /\
      exit_code out = 1 /\
      (forall m, In m (out_log (console out)) -> m = RecordingFor NUM_SECONDS).
Proof.
  intros Hok.
  destruct (capture_defined w Hok) as (data & rs & Hex).
  unfold main, handlePaError. rewrite Hex. unfold bind, fst.
  main_cases w; simpl; eexists; (split; [reflexivity|]); simpl;
    intros stage err Hin;
    repeat (destruct Hin as [Hin|Hin]; try discriminate Hin);
    try contradiction;
    injection Hin as <- <-;
    (split; [apply Z.eqb_neq; assumption|]);
    (split; [unfold checked_calls; simpl; tauto|]);
    (split; [reflexivity|]); (split; [reflexivity|]);
    intros m Hm; repeat (destruct Hm as [Hm|Hm]; try (symmetry; exact Hm));
    contradiction.
Qed.

Lemma portaudio_error_ends_the_run_witness :
  exists out,
    main (mkWorld paNoError 0 paNoError paNoError [None] [] (-9988) paNoError
            true 512 0) = Some out /\
    err_log (console out) = [PortAudioError "Stream Stopping" (-9988)] /\
    exit_code out = 1.
Proof.
  destruct (portaudio_error_ends_the_run
              (mkWorld paNoError 0 paNoError paNoError [None] [] (-9988)
                 paNoError true 512 0))
    as (out & Hmain & Herr).
  - unfold delivered_ok. simpl. repeat constructor.
  - exists out. split; [exact Hmain|].
    destruct (Herr "Stream Stopping"%string (-9988)) as (_ & _ & Hlog & Hcode & _).
    + revert Hmain. vm_compute. intros H. injection H as <-. left. reflexivity.
    + split; [exact Hlog|exact Hcode].
Defined.

(** ** What [main] hands to the file *)

Lemma delivered_stream_app (tr1 tr2 : list event) :
  delivered_stream (tr1 ++ tr2) = delivered_stream tr1 ++ delivered_stream tr2.
Proof. unfold delivered_stream. apply flat_map_app. Qed.

Lemma delivered_stream_invocations (framesPerBuffer : Z)
  (inputs : list (option (list float))) :
  0 <= framesPerBuffer ->
  Forall (full_buffer framesPerBuffer) inputs ->
  Z.of_nat (length (delivered_stream
                      (map (fun i => Invoke i framesPerBuffer) inputs))) =
  framesPerBuffer * Z.of_nat (length inputs).
Proof.
  intros H0 Hall. induction Hall as [|i inputs Hi Hrest IH].
  - simpl. lia.
  - unfold delivered_stream in *. simpl flat_map. simpl length.
    rewrite length_app, Nat2Z.inj_add, IH, appended_length.
    + lia.
    + destruct i as [rptr|]; [|trivial]. unfold full_buffer in Hi. lia.
Qed.

Lemma sf_count_t_wrap_small (z : Z) :
  - 2 ^ 63 <= z < 2 ^ 63 -> sf_count_t_wrap z = z.
Proof.
  intros Hz. unfold sf_count_t_wrap. rewrite Z.mod_small; lia.
Qed.

(** The number of samples [main] asks [sf_write_float] to write is
    [min (512 * k) 220500], where [k] is the number of buffers the transport
    delivered, before or after the flag was lowered.  In a run where every
    checked call succeeds, if [sf_write_float] returns that number [main]
    prints "Successfully wrote" with it and [stderr] stays empty; if it
    returns anything else, [main] reports the pair (expected, written) on
    [stderr], still prints "Saved recording", and exits with 0 all the same. *)
Theorem main_writes_what_was_captured (w : World) :
  delivered_ok w ->
  full_success w ->
  exists out,
    main w = Some out /\
    exit_code out = 0 /\
    (sf_write_float w =
       Z.min (FRAMES_PER_BUFFER
              * Z.of_nat (length (delivered_before_stop w ++ delivered_after_stop w)))
             (NUM_SECONDS * SAMPLE_RATE * NUM_CHANNELS) ->
     err_log (console out) = [] /\
     out_log (console out) =
       [RecordingFor NUM_SECONDS; RecordingFinished;
        SuccessfullyWrote (sf_write_float w);
        SavedRecordingTo OUTPUT_FILENAME]) /\
    (sf_write_float w <>
       Z.min (FRAMES_PER_BUFFER
              * Z.of_nat (length (delivered_before_stop w ++ delivered_after_stop w)))
             (NUM_SECONDS * SAMPLE_RATE * NUM_CHANNELS) ->
     err_log (console out) =
       [ErrorWritingSamples
          (Z.min (FRAMES_PER_BUFFER
                  * Z.of_nat (length (delivered_before_stop w
                                      ++ delivered_after_stop w)))
                 (NUM_SECONDS * SAMPLE_RATE * NUM_CHANNELS))
          (sf_write_float w)] /\
     out_log (console out) =
       [RecordingFor NUM_SECONDS; RecordingFinished;
        SavedRecordingTo OUTPUT_FILENAME]).
Proof.
  intros Hok (Hi & Hd & Ho & Hs & Hst & Hc & Hsf & Hcl).
  destruct main_setup_within_limit as [Hin _].
  pose proof (capture_trace_ok w Hok) as Htr.
  destruct (exec_samples_in_range (capture_trace w) main_setup Hin Htr)
    as (data & rs & Hex & Hsamples).
  assert (Hrec : recorded data =
            Z.min (FRAMES_PER_BUFFER
                   * Z.of_nat (length (delivered_before_stop w
                                       ++ delivered_after_stop w)))
                  (NUM_SECONDS * SAMPLE_RATE * NUM_CHANNELS)).
  { rewrite (recorded_of_samples _ _ Hsamples), length_firstn.
    change (samples main_setup) with (@nil float). rewrite app_nil_l.
    unfold capture_trace.
    rewrite delivered_stream_app, length_app, length_app.
    change (StopSignal :: map (fun i => Invoke i FRAMES_PER_BUFFER)
                            (delivered_after_stop w))
      with ([StopSignal] ++ map (fun i => Invoke i FRAMES_PER_BUFFER)
                              (delivered_after_stop w)).
    rewrite delivered_stream_app, length_app.
    unfold delivered_ok in Hok. apply Forall_app in Hok. destruct Hok as [Hb Ha].
    pose proof (delivered_stream_invocations FRAMES_PER_BUFFER _
                  ltac:(discriminate) Hb) as Lb.
    pose proof (delivered_stream_invocations FRAMES_PER_BUFFER _
                  ltac:(discriminate) Ha) as La.
    rewrite main_setup_maxSamples.
    change (NUM_SECONDS * SAMPLE_RATE * NUM_CHANNELS) with 220500.
    change (length (delivered_stream [StopSignal])) with 0%nat.
    lia. }
  assert (Hsmall : sf_count_t_wrap (recorded data) = recorded data).
  { apply sf_count_t_wrap_small. pose proof (recorded_nonneg data).
    rewrite Hrec in *. change (NUM_SECONDS * SAMPLE_RATE * NUM_CHANNELS) with 220500 in *.
    lia. }
  unfold main, handlePaError. rewrite Hex. unfold bind, fst.
  rewrite Hi, Ho, Hs, Hst, Hc, Hsf, Hcl, Hsmall, Hrec.
  apply Z.eqb_neq in Hd. rewrite Hd.
  destruct (Z.eqb_spec (sf_write_float w)
              (Z.min (FRAMES_PER_BUFFER
                      * Z.of_nat (length (delivered_before_stop w
                                          ++ delivered_after_stop w)))
                     (NUM_SECONDS * SAMPLE_RATE * NUM_CHANNELS))) as [Heq|Hne];
    simpl; eexists; (split; [reflexivity|]); simpl;
    (split; [reflexivity|]); split; intros H; try contradiction;
    split; reflexivity.
Qed.

Lemma main_writes_what_was_captured_witness :
  exists out,
    main short_write_world = Some out /\
    err_log (console out) = [ErrorWritingSamples 512 0].
Proof.
  destruct (main_writes_what_was_captured short_write_world)
    as (out & Hmain & _ & _ & Hshort).
  - unfold delivered_ok. simpl. repeat constructor.
  - unfold full_success. simpl. repeat split; discriminate.
  - exists out. split; [exact Hmain|].
    destruct Hshort as [Herr _]; [vm_compute; discriminate|exact Herr].
Defined.
